(** * The retrieval path of the education-service RAG module ([rag.py])

    A shallow embedding of [DocumentStore], [EmbeddingGenerator],
    [ContextRetriever] and [ResponseGenerator], followed by the properties
    of the retrieval path.

    Conventions.
    - A Python [str] is a [string]; each character is a code point below
      256 (the Latin-1 range), on which [str.lower], [str.split] and
      [str.encode] are written out below.
    - A Python [int] is a [Z].
    - A Python [float] is an IEEE 754 binary64 value: [spec_float] with
      precision 53 and maximal exponent 1024.
    - A [dict] used as a table is a [gmap]; the [dict] whose iteration
      order is observed ([doc_scores]) is an association list in insertion
      order.
    - An exception is a [Raise] in the [result] type.
    - The reading of the clock, [datetime.now().isoformat()], is an
      argument [now] of the operation that reads it.
    - The builtin [sum] on floats and the operator [**] are parameters of
      the definitions that use them (section [Platform]).
    - A metadata [dict] is an object that the store and its caller
      share: it is a reference [ref] into the dict objects of the heap,
      which the field [objects] of the store's state holds. *)

From Stdlib Require Import ZArith Ascii String List Bool Lia.
From Stdlib Require Import Floats.SpecFloat.
From Stdlib Require Import Sorting.Sorted Sorting.Permutation.
From stdpp Require Import gmap strings list fin_maps fin_sets pretty.

Import ListNotations.
Local Open Scope string_scope.
Local Open Scope list_scope.
Local Open Scope Z_scope.

(** ** Exceptions *)

Inductive exn : Type :=
| KeyError
| OverflowError
| ZeroDivisionError.

Inductive result (A : Type) : Type :=
| Ok (a : A)
| Raise (e : exn).
Arguments Ok {A} a.
Arguments Raise {A} e.

Global Instance result_ret : MRet result := fun _ a => Ok a.

Global Instance result_bind : MBind result := fun _ _ k r =>
  match r with
  | Ok a => k a
  | Raise e => Raise e
  end.

Global Instance result_fmap : FMap result := fun _ _ f r =>
  match r with
  | Ok a => Ok (f a)
  | Raise e => Raise e
  end.

(** [for x in l: ys.append(f(x))], stopping at the first exception. *)
Fixpoint map_result {A B} (f : A → result B) (l : list A) : result (list B) :=
  match l with
  | [] => Ok []
  | x :: l' => y ← f x; ys ← map_result f l'; Ok (y :: ys)
  end.

(** ** Text *)

Module Text.

(** [str.lower] on one code point below 256: [A-Z], and the upper-case
    Latin-1 letters 192..222 except the multiplication sign 215. *)
Definition lower_char (c : ascii) : ascii :=
  let n := N_of_ascii c in
  if (((65 <=? n) && (n <=? 90)) ||
      ((192 <=? n) && (n <=? 222) && negb (n =? 215)))%N
  then ascii_of_N (n + 32) else c.

Fixpoint lower (s : string) : string :=
  match s with
  | EmptyString => EmptyString
  | String c s' => String (lower_char c) (lower s')
  end.

(** [str.isspace] on one code point below 256. *)
Definition isspace (c : ascii) : bool :=
  let n := N_of_ascii c in
  (((9 <=? n) && (n <=? 13)) || ((28 <=? n) && (n <=? 32)) ||
   (n =? 133) || (n =? 160))%N.

(** [str.split()] without arguments: the maximal runs of characters that
    are not white space. [word] is the run being read. *)
Fixpoint split_from (word : string) (s : string) : list string :=
  match s with
  | EmptyString => if decide (word = "") then [] else [word]
  | String c s' =>
      if isspace c
      then (if decide (word = "") then split_from "" s'
            else word :: split_from "" s')
      else split_from (word +:+ String c "") s'
  end.

Definition split (s : string) : list string := split_from "" s.

(** The slice [s[:n]] for a literal [n >= 0]. *)
Fixpoint take (n : nat) (s : string) : string :=
  match n, s with
  | S n', String c s' => String c (take n' s')
  | _, _ => EmptyString
  end.

(** [str.encode()]: UTF-8, one byte below 128 and two bytes from 128 to
    255. *)
Definition encode_char (c : ascii) : list Z :=
  let n := Z.of_N (N_of_ascii c) in
  if n <? 128 then [n]
  else [Z.lor 192 (Z.shiftr n 6); Z.lor 128 (Z.land n 63)].

Fixpoint encode (s : string) : list Z :=
  match s with
  | EmptyString => []
  | String c s' => encode_char c ++ encode s'
  end.

(** The words of a text as both [add_document] and [search_documents]
    read them: [text.lower().split()]. *)
Definition words (text : string) : list string := split (lower text).

End Text.

(** ** MD5 ([hashlib.md5], RFC 1321)

    Bytes are integers in [0, 256), words are integers in [0, 2^32). *)

Module MD5.

Definition mask32 (x : Z) : Z := Z.land x 4294967295.

Definition add32 (x y : Z) : Z := mask32 (x + y).

Definition not32 (x : Z) : Z := Z.lxor x 4294967295.

Definition rotl32 (x c : Z) : Z :=
  mask32 (Z.lor (Z.shiftl x c) (Z.shiftr x (32 - c))).

Definition shifts : list Z :=
  [7; 12; 17; 22; 7; 12; 17; 22; 7; 12; 17; 22; 7; 12; 17; 22;
   5; 9; 14; 20; 5; 9; 14; 20; 5; 9; 14; 20; 5; 9; 14; 20;
   4; 11; 16; 23; 4; 11; 16; 23; 4; 11; 16; 23; 4; 11; 16; 23;
   6; 10; 15; 21; 6; 10; 15; 21; 6; 10; 15; 21; 6; 10; 15; 21].

(** [floor (2^32 * abs (sin (i + 1)))] for [i] from 0 to 63. *)
Definition sines : list Z :=
  [3614090360; 3905402710; 606105819; 3250441966;
   4118548399; 1200080426; 2821735955; 4249261313;
   1770035416; 2336552879; 4294925233; 2304563134;
   1804603682; 4254626195; 2792965006; 1236535329;
   4129170786; 3225465664; 643717713; 3921069994;
   3593408605; 38016083; 3634488961; 3889429448;
   568446438; 3275163606; 4107603335; 1163531501;
   2850285829; 4243563512; 1735328473; 2368359562;
   4294588738; 2272392833; 1839030562; 4259657740;
   2763975236; 1272893353; 4139469664; 3200236656;
   681279174; 3936430074; 3572445317; 76029189;
   3654602809; 3873151461; 530742520; 3299628645;
   4096336452; 1126891415; 2878612391; 4237533241;
   1700485571; 2399980690; 4293915773; 2240044497;
   1873313359; 4264355552; 2734768916; 1309151649;
   4149444226; 3174756917; 718787259; 3951481745].

Definition word_le (b0 b1 b2 b3 : Z) : Z :=
  Z.lor b0 (Z.lor (Z.shiftl b1 8) (Z.lor (Z.shiftl b2 16) (Z.shiftl b3 24))).

Definition byte_at (x k : Z) : Z := Z.land (Z.shiftr x (8 * k)) 255.

Definition bytes_le (n : nat) (x : Z) : list Z :=
  map (fun k => byte_at x (Z.of_nat k)) (seq 0 n).

Fixpoint words_le (bs : list Z) : list Z :=
  match bs with
  | b0 :: b1 :: b2 :: b3 :: bs' => word_le b0 b1 b2 b3 :: words_le bs'
  | _ => []
  end.

(** Padding: a [1] bit, zeros up to 56 modulo 64 bytes, then the length
    in bits as 8 little-endian bytes. *)
Definition pad (msg : list Z) : list Z :=
  let n := Z.of_nat (length msg) in
  let zeros := Z.to_nat ((55 - n) mod 64) in
  msg ++ [128] ++ repeat 0 zeros ++ bytes_le 8 ((8 * n) mod 2 ^ 64).

Fixpoint blocks (fuel : nat) (ws : list Z) : list (list Z) :=
  match fuel, ws with
  | S fuel', _ :: _ => firstn 16 ws :: blocks fuel' (skipn 16 ws)
  | _, _ => []
  end.

Definition state : Type := Z * Z * Z * Z.

Definition round (m : list Z) (st : state) (i : nat) : state :=
  let '(a, b, c, d) := st in
  let '(f, g) :=
    if (i <? 16)%nat then
      (Z.lor (Z.land b c) (Z.land (not32 b) d), i)
    else if (i <? 32)%nat then
      (Z.lor (Z.land d b) (Z.land (not32 d) c), ((5 * i + 1) mod 16)%nat)
    else if (i <? 48)%nat then
      (Z.lxor b (Z.lxor c d), ((3 * i + 5) mod 16)%nat)
    else
      (Z.lxor c (Z.lor b (not32 d)), ((7 * i) mod 16)%nat) in
  let f' := add32 (add32 (add32 f a) (nth i sines 0)) (nth g m 0) in
  (d, add32 b (rotl32 f' (nth i shifts 0)), b, c).

Definition compress (st : state) (m : list Z) : state :=
  let '(a0, b0, c0, d0) := st in
  let '(a, b, c, d) := fold_left (round m) (seq 0 64) st in
  (add32 a0 a, add32 b0 b, add32 c0 c, add32 d0 d).

Definition init : state := (1732584193, 4023233417, 2562383102, 271733878).

(** [hashlib.md5(msg).digest()]: 16 bytes. *)
Definition digest (msg : list Z) : list Z :=
  let ws := words_le (pad msg) in
  let '(a, b, c, d) := fold_left compress (blocks (length ws) ws) init in
  bytes_le 4 a ++ bytes_le 4 b ++ bytes_le 4 c ++ bytes_le 4 d.

Definition hex_digit (n : Z) : ascii :=
  if n <? 10 then ascii_of_N (Z.to_N (48 + n))
  else ascii_of_N (Z.to_N (87 + n)).

(** [bytes.hex()]: two lower-case digits per byte. *)
Fixpoint hex (bs : list Z) : string :=
  match bs with
  | [] => EmptyString
  | b :: bs' =>
      String (hex_digit (Z.shiftr b 4)) (String (hex_digit (Z.land b 15)) (hex bs'))
  end.

(** [hashlib.md5(msg).hexdigest()]. *)
Definition hexdigest (msg : list Z) : string := hex (digest msg).

End MD5.


(** [int(s, 16)] on a string of hexadecimal digits; [None] stands for
    [ValueError]. *)
Definition hex_value (c : ascii) : option Z :=
  let n := Z.of_N (N_of_ascii c) in
  if (48 <=? n) && (n <=? 57) then Some (n - 48)
  else if (97 <=? n) && (n <=? 102) then Some (n - 87)
  else if (65 <=? n) && (n <=? 70) then Some (n - 55)
  else None.

Fixpoint int_16_from (acc : Z) (s : string) : option Z :=
  match s with
  | EmptyString => Some acc
  | String c s' => v ← hex_value c; int_16_from (16 * acc + v) s'
  end.

Definition int_16 (s : string) : option Z :=
  match s with
  | EmptyString => None
  | _ => int_16_from 0 s
  end.

(** ** Floats *)

Module Float.

Definition float : Type := spec_float.

Definition prec : Z := 53.
Definition emax : Z := 1024.

Definition zero : float := S754_zero false.

(** [float(n)] for an [int] [n]; exact below [2^53]. *)
Definition of_int (n : Z) : float := binary_normalize prec emax n 0 false.

Definition mul : float → float → float := SFmul prec emax.
Definition add : float → float → float := SFadd prec emax.
Definition div : float → float → float := SFdiv prec emax.
Definition sqrt : float → float := SFsqrt prec emax.

(** [x == y] and [x < y]; both are [False] when an operand is a NaN. *)
Definition eqb : float → float → bool := SFeqb.
Definition ltb : float → float → bool := SFltb.
Definition leb : float → float → bool := SFleb.

Definition is_nan (x : float) : bool :=
  match x with
  | S754_nan => true
  | _ => false
  end.

Definition is_finite (x : float) : bool :=
  match x with
  | S754_zero _ | S754_finite _ _ _ => true
  | _ => false
  end.

(** [x / y]: division by a zero raises. *)
Definition truediv (x y : float) : result float :=
  if eqb y zero then Raise ZeroDivisionError else Ok (div x y).

End Float.

Abbreviation float := Float.float.

(** ** Sorting and slicing *)

Section Sorting.
Context {A K : Type} (ltb : K → K → bool) (key : A → K).

(** [sorted(l, key=key, reverse=True)]: the sort is stable, so an
    element goes in front of the elements after it whose key is not
    greater. On keys that [ltb] orders totally every stable sort returns
    this list. *)
Fixpoint insert_reverse (x : A) (l : list A) : list A :=
  match l with
  | [] => [x]
  | y :: l' =>
      if ltb (key x) (key y) then y :: insert_reverse x l' else x :: y :: l'
  end.

Definition sorted_reverse (l : list A) : list A := foldr insert_reverse [] l.

End Sorting.

(** The slice [l[:k]]: a negative [k] counts from the end. *)
Definition slice_to {A} (k : Z) (l : list A) : list A :=
  if k <? 0 then firstn (Z.to_nat (Z.of_nat (length l) + k)) l
  else firstn (Z.to_nat k) l.

(** ** DocumentStore *)

(** A metadata [dict] is stored, returned and written as the object it
    is, not as a copy: [add_document] keeps the dict of its caller and
    writes ["added_at"] into it, and the results hold the dict that the
    store holds. A [ref] names a dict object. A value that a method hands
    out is such an object, or the empty dict that [.get(doc_id, {})] makes
    when the store has none. *)
Definition ref : Type := nat.

Inductive dict_value : Type :=
| Object (r : ref)
| NewDict.

#[global] Instance dict_value_eq_dec : EqDecision dict_value.
Proof. solve_decision. Defined.

(** The three tables of a [DocumentStore], and in [objects] the dict
    objects of the heap with their present contents: those that
    [metadata_store] refers to and those that the caller holds. *)
Record DocumentStore : Type := {
  documents : gmap string string;
  document_index : gmap string (list string);
  metadata_store : gmap string ref;
  objects : gmap ref (gmap string string)
}.

Record SearchResult : Type := {
  sr_doc_id : string;
  sr_content : string;
  sr_score : Z;
  sr_metadata : dict_value
}.

Record Document : Type := {
  d_doc_id : string;
  d_content : string;
  d_metadata : dict_value
}.

Module DocumentStore.

(** [__init__] *)
Definition new : DocumentStore :=
  {| documents := ∅; document_index := ∅; metadata_store := ∅; objects := ∅ |}.

(** The body of the indexing loop:
    [if word not in index: index[word] = []; index[word].append(doc_id)]. *)
Definition index_word (doc_id : string) (word : string)
    (index : gmap string (list string)) : gmap string (list string) :=
  <[word := default [] (index !! word) ++ [doc_id]]> index.

(** [metadata or {}]: the dict object of the caller when there is one and
    it is not empty, and a new dict object otherwise. A reference to no
    object of the heap is read as [None]. *)
Definition metadata_or_new (self : DocumentStore) (metadata : option ref) : ref :=
  match metadata with
  | Some r =>
      match objects self !! r with
      | Some d => if decide (d = ∅) then fresh (dom (objects self)) else r
      | None => fresh (dom (objects self))
      end
  | None => fresh (dom (objects self))
  end.

(** [add_document]; [now] is the reading of the clock. The loop runs
    over [set(words)], in the order of that set. The dict object that
    [metadata_store] gets is the one that ["added_at"] is written to. *)
Definition add_document (self : DocumentStore) (doc_id content : string)
    (metadata : option ref) (now : string) : DocumentStore * string :=
  let stored := metadata_or_new self metadata in
  let words := Text.words content in
  ({| documents := <[doc_id := content]> (documents self);
      document_index :=
        set_fold (index_word doc_id) (document_index self)
                 (list_to_set words : gset string);
      metadata_store := <[doc_id := stored]> (metadata_store self);
      objects :=
        <[stored := <["added_at" := now]> (default ∅ (objects self !! stored))]>
          (objects self) |},
   doc_id).

(** [self.metadata_store.get(doc_id, {})] *)
Definition metadata_get (self : DocumentStore) (doc_id : string) : dict_value :=
  match metadata_store self !! doc_id with
  | Some r => Object r
  | None => NewDict
  end.

Definition retrieve_document (self : DocumentStore) (doc_id : string)
    : option Document :=
  match documents self !! doc_id with
  | Some content =>
      Some {| d_doc_id := doc_id;
              d_content := content;
              d_metadata := metadata_get self doc_id |}
  | None => None
  end.

(** [doc_scores[doc_id] = doc_scores.get(doc_id, 0) + 1] on a [dict]
    kept in insertion order. *)
Fixpoint bump (doc_id : string) (doc_scores : list (string * Z))
    : list (string * Z) :=
  match doc_scores with
  | [] => [(doc_id, 0 + 1)]
  | (k, v) :: rest =>
      if decide (k = doc_id) then (k, v + 1) :: rest
      else (k, v) :: bump doc_id rest
  end.

(** The scoring loop of [search_documents]. *)
Definition score_word (self : DocumentStore)
    (doc_scores : list (string * Z)) (word : string) : list (string * Z) :=
  match document_index self !! word with
  | Some doc_ids => fold_left (fun scores doc_id => bump doc_id scores) doc_ids doc_scores
  | None => doc_scores
  end.

Definition doc_scores (self : DocumentStore) (query : string)
    : list (string * Z) :=
  fold_left (score_word self) (Text.words query) [].

Definition ranked_docs (self : DocumentStore) (query : string) (top_k : Z)
    : list (string * Z) :=
  slice_to top_k (sorted_reverse Z.ltb snd (doc_scores self query)).

Definition render (self : DocumentStore) (entry : string * Z)
    : result SearchResult :=
  let '(doc_id, score) := entry in
  match documents self !! doc_id with
  | Some content =>
      Ok {| sr_doc_id := doc_id;
            sr_content := Text.take 200 content;
            sr_score := score;
            sr_metadata := metadata_get self doc_id |}
  | None => Raise KeyError
  end.

Definition search_documents (self : DocumentStore) (query : string)
    (top_k : Z) : result (list SearchResult) :=
  map_result (render self) (ranked_docs self query top_k).

End DocumentStore.

(** ** EmbeddingGenerator *)

Record EmbeddingGenerator : Type := {
  embedding_dim : Z;
  embeddings : gmap string (list float)
}.

Module EmbeddingGenerator.

(** [__init__]; the default dimension is 384. *)
Definition new (embedding_dim : Z) : EmbeddingGenerator :=
  {| embedding_dim := embedding_dim; embeddings := ∅ |}.

(** [int(hashlib.md5(text.encode()).hexdigest(), 16)]. *)
Definition hash_int (text : string) : Z :=
  default 0 (int_16 (MD5.hexdigest (Text.encode text))).

(** The component [float((hash_int >> i) % 100) / 100.0]; the divisor is
    the literal [100.0]. *)
Definition component (hash_int : Z) (i : nat) : float :=
  Float.div (Float.of_int (Z.shiftr hash_int (Z.of_nat i) mod 100))
            (Float.of_int 100).

Definition generate_embedding (self : EmbeddingGenerator) (text : string)
    : list float :=
  let hash_int := hash_int text in
  map (component hash_int) (seq 0 (Z.to_nat (embedding_dim self))).

Definition store_embedding (self : EmbeddingGenerator) (doc_id : string)
    (embedding : list float) : EmbeddingGenerator :=
  {| embedding_dim := embedding_dim self;
     embeddings := <[doc_id := embedding]> (embeddings self) |}.

End EmbeddingGenerator.

(** ** Similarity, context retrieval and response assembly *)

(** A division carried out by [similarity_score]. *)
Inductive event : Type :=
| Division (numerator denominator : float).

Record ContextRetriever : Type := {
  doc_store : DocumentStore;
  embedding_gen : EmbeddingGenerator
}.

Record Context : Type := {
  c_doc_id : string;
  c_content : string;
  c_similarity : float;
  c_metadata : dict_value
}.

Record ResponseGenerator : Type := {
  context_retriever : ContextRetriever
}.

Record Source : Type := {
  s_doc_id : string;
  s_relevance : float
}.

Record Response : Type := {
  r_query : string;
  r_response : string;
  r_context_used : Z;
  r_sources : list Source;
  r_student_id : option string;
  r_generated_at : string
}.

Definition newline : string := String (ascii_of_N 10) EmptyString.

Section Platform.

(** Two float operations of [similarity_score] are not fixed down to the
    last bit by the source: the builtin [sum] (a left-to-right sum up to
    Python 3.11, a compensated sum from 3.12 on) and the operator [**],
    which calls the [pow] of the C library. They are parameters of the
    model.
    - [fsum l] is [sum(l)] on floats; the integer [0] that [sum] returns
      on an empty sequence is read as the float [0.0], which is what the
      float operations applied to it make of it.
    - [pow_2 a] is [a ** 2] and [pow_half s] is [s ** 0.5]; [None] is
      the [OverflowError] that [**] raises when the power is out of
      range. The base of [** 0.5] is a sum of squares. *)
Variable fsum : list float → float.
Variable pow_2 pow_half : float → option float.

Definition overflow (r : option float) : result float :=
  match r with
  | Some x => Ok x
  | None => Raise OverflowError
  end.

(** [sum(a ** 2 for a in emb) ** 0.5] *)
Definition magnitude (emb : list float) : result float :=
  squares ← map_result (fun a => overflow (pow_2 a)) emb;
  overflow (pow_half (fsum squares)).

(** [sum(a * b for a, b in zip(emb1, emb2))] *)
Definition dot_product (emb1 emb2 : list float) : float :=
  fsum (map (fun ab => Float.mul ab.1 ab.2) (zip emb1 emb2)).

(** [similarity_score], with the divisions it carries out. *)
Definition similarity_score (self : EmbeddingGenerator)
    (emb1 emb2 : list float) : list event * result float :=
  let dot_product := dot_product emb1 emb2 in
  match magnitude emb1 with
  | Raise e => ([], Raise e)
  | Ok magnitude1 =>
      match magnitude emb2 with
      | Raise e => ([], Raise e)
      | Ok magnitude2 =>
          if Float.eqb magnitude1 Float.zero || Float.eqb magnitude2 Float.zero
          then ([], Ok Float.zero)
          else
            let denominator := Float.mul magnitude1 magnitude2 in
            ([Division dot_product denominator],
             Float.truediv dot_product denominator)
      end
  end.

(** The body of the loop of [retrieve_context]. *)
Definition score_context (self : ContextRetriever)
    (query_embedding : list float) (found : SearchResult) : result Context :=
  let doc_embedding :=
    EmbeddingGenerator.generate_embedding (embedding_gen self) (sr_content found) in
  similarity ← (similarity_score (embedding_gen self) query_embedding doc_embedding).2;
  Ok {| c_doc_id := sr_doc_id found;
        c_content := sr_content found;
        c_similarity := similarity;
        c_metadata := sr_metadata found |}.

(** The loop of [retrieve_context] and its final [sorted]. *)
Definition rank_context (self : ContextRetriever)
    (query_embedding : list float) (search_results : list SearchResult)
    : result (list Context) :=
  context_results ← map_result (score_context self query_embedding) search_results;
  Ok (sorted_reverse Float.ltb c_similarity context_results).

Definition retrieve_context (self : ContextRetriever) (query : string)
    (top_k : Z) : result (list Context) :=
  let query_embedding :=
    EmbeddingGenerator.generate_embedding (embedding_gen self) query in
  search_results ← DocumentStore.search_documents (doc_store self) query top_k;
  rank_context self query_embedding search_results.

(** [_build_response] *)
Definition _build_response (query : string) (context : list Context) : string :=
  match context with
  | [] => "I couldn't find relevant information about: " +:+ query
  | _ =>
      let response_parts :=
        [("Based on available educational materials:" +:+ newline)] ++
        imap (fun i ctx =>
                newline +:+ pretty (S i) +:+ ". " +:+
                Text.take 150 (c_content ctx) +:+ "...") context ++
        [(newline +:+ newline +:+
          "Would you like me to explain any part of this further?")] in
      foldr String.append "" response_parts
  end.

(** [generate_response]; [now] is the reading of the clock. *)
Definition generate_response (self : ResponseGenerator) (query : string)
    (student_id : option string) (now : string) : result Response :=
  context ← retrieve_context (context_retriever self) query 3;
  let response_text := _build_response query context in
  Ok {| r_query := query;
        r_response := response_text;
        r_context_used := Z.of_nat (length context);
        r_sources :=
          map (fun c => {| s_doc_id := c_doc_id c;
                           s_relevance := c_similarity c |}) context;
        r_student_id := student_id;
        r_generated_at := now |}.

End Platform.

(** A reference platform for the examples: a left-to-right [sum] and a
    correctly rounded [**]. *)
Module Reference.

Definition fsum (l : list float) : float := fold_left Float.add l Float.zero.

Definition pow_2 (a : float) : option float :=
  let square := Float.mul a a in
  if Float.is_finite a && negb (Float.is_finite square) then None
  else Some square.

(** On a negative finite base [** 0.5] leaves the floats; a sum of squares
    is never one. *)
Definition pow_half (s : float) : option float :=
  match s with
  | S754_zero _ => Some Float.zero
  | S754_infinity _ => Some (S754_infinity false)
  | _ => Some (Float.sqrt s)
  end.

End Reference.

(** ** Histories of a store *)

(** The events of a history: the operations of [DocumentStore], and the
    caller making or writing a dict object, one that it may pass as
    metadata or one that it was handed. *)
Inductive operation : Type :=
| AddDocument (doc_id content : string) (metadata : option ref) (now : string)
| RetrieveDocument (doc_id : string)
| SearchDocuments (query : string) (top_k : Z)
| CallerWrites (r : ref) (content : gmap string string).

(** The store after an event; of the operations only [add_document]
    assigns to it. *)
Definition run_operation (self : DocumentStore) (op : operation) : DocumentStore :=
  match op with
  | AddDocument doc_id content metadata now =>
      (DocumentStore.add_document self doc_id content metadata now).1
  | RetrieveDocument _ => self
  | SearchDocuments _ _ => self
  | CallerWrites r content =>
      {| documents := documents self;
         document_index := document_index self;
         metadata_store := metadata_store self;
         objects := <[r := content]> (objects self) |}
  end.

(** The store after a sequence of operations on a new store. *)
Definition run (ops : list operation) : DocumentStore :=
  fold_left run_operation ops DocumentStore.new.

(** [document_index.get(word, [])] *)
Definition entry (self : DocumentStore) (word : string) : list string :=
  default [] (document_index self !! word).

(** No index entry lists a [doc_id] twice. *)
Definition unique_entries (self : DocumentStore) : Prop :=
  ∀ word, NoDup (entry self word).

(** The occurrences of words in the query whose index entry lists
    [doc_id]. *)
Definition matching_words (self : DocumentStore) (query doc_id : string)
    : list string :=
  filter (fun word => doc_id ∈ entry self word) (Text.words query).

(** [doc_scores.get(doc_id, 0)] *)
Fixpoint get (doc_scores : list (string * Z)) (doc_id : string) : Z :=
  match doc_scores with
  | [] => 0
  | (k, v) :: rest => if decide (k = doc_id) then v else get rest doc_id
  end.

(** How often [doc_id] is listed under the words of a list, a word that
    is repeated counting again. *)
Definition listings (self : DocumentStore) (words : list string)
    (doc_id : string) : nat :=
  sum_list (map (fun word => length (filter (fun d => d = doc_id) (entry self word))) words).

(** The [doc_id]s that a sequence of operations adds. *)
Definition added (ops : list operation) : list string :=
  omap (fun op => match op with
                  | AddDocument doc_id _ _ _ => Some doc_id
                  | _ => None
                  end) ops.

(** The contents that a dict value has in the heap of the store. *)
Definition read (self : DocumentStore) (v : dict_value) : gmap string string :=
  match v with
  | Object r => default ∅ (objects self !! r)
  | NewDict => ∅
  end.

(** The similarity of the context compares as equal to [x]. *)
Definition tied (x : float) (c : Context) : bool := Float.eqb (c_similarity c) x.

(** The similarity that [retrieve_context] computes for the candidate is
    a float that compares as equal to [x]. *)
Definition tied_candidate (fsum : list float → float)
    (pow_2 pow_half : float → option float) (gen : EmbeddingGenerator)
    (query_embedding : list float) (x : float) (r : SearchResult) : bool :=
  match (similarity_score fsum pow_2 pow_half gen query_embedding
           (EmbeddingGenerator.generate_embedding gen (sr_content r))).2 with
  | Ok similarity => Float.eqb similarity x
  | Raise _ => false
  end.

(** An integer in the range of a byte. *)
Definition is_byte (b : Z) : Prop := 0 ≤ b < 256.

(** [a] may stand in front of [b] in a sequence in descending order of
    score. *)
Definition by_score_descending (a b : string * Z) : Prop := b.2 ≤ a.2.

(** [a] may stand in front of [b] in a sequence in descending order of
    similarity. *)
Definition by_similarity_descending (a b : Context) : Prop :=
  Float.leb (c_similarity b) (c_similarity a) = true.

(** The outcome is a float that is not a NaN. *)
Definition is_number (outcome : result float) : Prop :=
  ∃ x, outcome = Ok x ∧ Float.is_nan x = false.

Definition is_numberb (outcome : result float) : bool :=
  match outcome with
  | Ok x => negb (Float.is_nan x)
  | Raise _ => false
  end.

(** The generator after a sequence of [store_embedding] calls. *)
Definition store_all (self : EmbeddingGenerator)
    (stored : list (string * list float)) : EmbeddingGenerator :=
  fold_left (fun g de => EmbeddingGenerator.store_embedding g de.1 de.2) stored self.

(** [sub in s] *)
Definition contains (s sub : string) : Prop :=
  ∃ before after, s = before +:+ sub +:+ after.

(** ** Example histories *)

Module Examples.

(** The two documents of the end-to-end scenario. *)
Definition two_documents : list operation :=
  [AddDocument "d1" "Python is a programming language" None "2024-01-01T00:00:00";
   AddDocument "d2" "Loops repeat code in Python" None "2024-01-01T00:00:01"].

(** One document added twice. *)
Definition added_twice : list operation :=
  [AddDocument "d1" "python" None "2024-01-01T00:00:00";
   AddDocument "d1" "python" None "2024-01-01T00:00:01"].

(** 200 characters: the excerpt that [search_documents] shows of each of
    the documents below. *)
Definition excerpt : string :=
  "python " +:+ string_of_list_ascii (repeat "x"%char 193).

(** Two stores with the documents d1 and d2, added in this order. The
    contents start with the same 200 characters; the word [beta] is in d2
    in the first store and in d1 in the second. *)
Definition beta_in_d2 : list operation :=
  [AddDocument "d1" (excerpt +:+ " alpha") None "2024-01-01T00:00:00";
   AddDocument "d2" (excerpt +:+ " beta") None "2024-01-01T00:00:01"].

Definition beta_in_d1 : list operation :=
  [AddDocument "d1" (excerpt +:+ " beta") None "2024-01-01T00:00:00";
   AddDocument "d2" (excerpt +:+ " alpha") None "2024-01-01T00:00:01"].

(** One dict passed as the metadata of two documents. *)
Definition shared_metadata : list operation :=
  [CallerWrites 7%nat {["subject" := "python"]};
   AddDocument "d1" "Python is a programming language" (Some 7%nat)
     "2024-01-01T00:00:00";
   AddDocument "d2" "Loops repeat code in Python" (Some 7%nat)
     "2024-01-01T00:00:01"].

End Examples.

(** ** RAGSystem *)

Record ConversationEntry : Type := {
  e_query : string;
  e_response : Response;
  e_timestamp : string
}.

(** The system has one store and one generator. Its [context_retriever]
    and its [response_generator] hold these two objects themselves, not
    copies: they read the store and the generator as they are when a
    method is called, and are computed here from the two fields
    [doc_store] and [embedding_gen] of the system. *)
Record RAGSystem : Type := {
  sys_doc_store : DocumentStore;
  sys_embedding_gen : EmbeddingGenerator;
  conversation_history : gmap string (list ConversationEntry)
}.

(** The truth value of [student_id] in [if student_id:]: [None] and the
    empty string are false. *)
Definition truthy (student_id : option string) : bool :=
  match student_id with
  | Some (String _ _) => true
  | _ => false
  end.

Module RAGSystem.

(** [__init__] *)
Definition new : RAGSystem :=
  {| sys_doc_store := DocumentStore.new;
     sys_embedding_gen := EmbeddingGenerator.new 384;
     conversation_history := ∅ |}.

Definition sys_context_retriever (self : RAGSystem) : ContextRetriever :=
  {| doc_store := sys_doc_store self; embedding_gen := sys_embedding_gen self |}.

Definition sys_response_generator (self : RAGSystem) : ResponseGenerator :=
  {| context_retriever := sys_context_retriever self |}.

Definition add_educational_resource (self : RAGSystem)
    (resource_id content : string) (metadata : option ref)
    (now : string) : RAGSystem * string :=
  let '(store, doc_id) :=
    DocumentStore.add_document (sys_doc_store self) resource_id content metadata now in
  let embedding :=
    EmbeddingGenerator.generate_embedding (sys_embedding_gen self) content in
  ({| sys_doc_store := store;
      sys_embedding_gen :=
        EmbeddingGenerator.store_embedding (sys_embedding_gen self) doc_id embedding;
      conversation_history := conversation_history self |},
   doc_id).

(** The history after [conversation_history[student_id].append(entry)],
    the list being made first when the student has none. *)
Definition record_entry (student_id : string) (item : ConversationEntry)
    (history : gmap string (list ConversationEntry))
    : gmap string (list ConversationEntry) :=
  <[student_id := default [] (history !! student_id) ++ [item]]> history.

Definition get_conversation_history (self : RAGSystem) (student_id : string)
    : list ConversationEntry :=
  default [] (conversation_history self !! student_id).

Section Answer.
Variable fsum : list float → float.
Variable pow_2 pow_half : float → option float.

(** [answer_student_query]; [generated_at] is the reading of the clock in
    [generate_response] and [timestamp] the later one for the history. *)
Definition answer_student_query (self : RAGSystem) (query : string)
    (student_id : option string) (generated_at timestamp : string)
    : result (RAGSystem * Response) :=
  response ← generate_response fsum pow_2 pow_half (sys_response_generator self)
                query student_id generated_at;
  let history :=
    match student_id with
    | Some id =>
        if truthy student_id then
          record_entry id {| e_query := query;
                             e_response := response;
                             e_timestamp := timestamp |}
            (conversation_history self)
        else conversation_history self
    | None => conversation_history self
    end in
  Ok ({| sys_doc_store := sys_doc_store self;
         sys_embedding_gen := sys_embedding_gen self;
         conversation_history := history |},
      response).

End Answer.

End RAGSystem.

(** ** Histories of a system *)

(** The system a call leaves behind: the one it returns, or the one it
    was called on when it raises. *)
Definition state_after {A} (self : RAGSystem) (outcome : result (RAGSystem * A))
    : RAGSystem :=
  match outcome with
  | Ok (self', _) => self'
  | Raise _ => self
  end.

(** The events of a history of a system: the methods of [RAGSystem], and
    the caller making or writing a dict object. *)
Inductive rag_operation : Type :=
| AddEducationalResource (resource_id content : string)
                         (metadata : option ref) (now : string)
| AnswerStudentQuery (query : string) (student_id : option string)
                     (generated_at timestamp : string)
| GetConversationHistory (student_id : string)
| CallerWritesDict (r : ref) (content : gmap string string).

Section SystemHistories.
Variable fsum : list float → float.
Variable pow_2 pow_half : float → option float.

Definition rag_run_operation (self : RAGSystem) (op : rag_operation) : RAGSystem :=
  match op with
  | AddEducationalResource resource_id content metadata now =>
      (RAGSystem.add_educational_resource self resource_id content metadata now).1
  | AnswerStudentQuery query student_id generated_at timestamp =>
      state_after self
        (RAGSystem.answer_student_query fsum pow_2 pow_half self query student_id
           generated_at timestamp)
  | GetConversationHistory _ => self
  | CallerWritesDict r content =>
      {| sys_doc_store := run_operation (sys_doc_store self) (CallerWrites r content);
         sys_embedding_gen := sys_embedding_gen self;
         conversation_history := conversation_history self |}
  end.

(** The system after a sequence of calls on a new system. *)
Definition rag_run (ops : list rag_operation) : RAGSystem :=
  fold_left rag_run_operation ops RAGSystem.new.

End SystemHistories.

(** The calls of [add_document] that a sequence of calls on a system
    makes, and the writes of the caller. *)
Definition store_operations (ops : list rag_operation) : list operation :=
  omap (fun op => match op with
                  | AddEducationalResource resource_id content metadata now =>
                      Some (AddDocument resource_id content metadata now)
                  | CallerWritesDict r content => Some (CallerWrites r content)
                  | _ => None
                  end) ops.

(** No call of the sequence has asked a question as the student
    [student_id]. *)
Definition never_asked (student_id : string) (ops : list rag_operation) : Prop :=
  ∀ query generated_at timestamp,
    AnswerStudentQuery query (Some student_id) generated_at timestamp ∉ ops.

(** ** What a history of a store has added *)

(** The [doc_id]s added with a content that has the word [word], in the
    order of the calls, a [doc_id] added again counting again. *)
Definition listed_under (word : string) (ops : list operation) : list string :=
  omap (fun op => match op with
                  | AddDocument doc_id content _ _ =>
                      if decide (word ∈ Text.words content) then Some doc_id else None
                  | _ => None
                  end) ops.

(** The content of the last call that added [doc_id]. *)
Definition last_added (doc_id : string) (ops : list operation) : option string :=
  last (omap (fun op => match op with
                        | AddDocument d content _ _ =>
                            if decide (d = doc_id) then Some content else None
                        | _ => None
                        end) ops).

(** Some call has added [doc_id] with a content that has a word of the
    query. *)
Definition added_with_word_of (query doc_id : string) (ops : list operation) : Prop :=
  ∃ content metadata now word,
    AddDocument doc_id content metadata now ∈ ops ∧
    word ∈ Text.words query ∧ word ∈ Text.words content.

(** Every character of the string passes the test. *)
Fixpoint forall_chars (test : ascii → bool) (s : string) : bool :=
  match s with
  | EmptyString => true
  | String c s' => test c && forall_chars test s'
  end.

(** A character that [str.lower] leaves as it is and that is no white
    space. *)
Definition word_char (c : ascii) : bool :=
  Ascii.eqb (Text.lower_char c) c && negb (Text.isspace c).

(** [int.from_bytes(bs, 'big')] *)
Definition big_endian (bs : list Z) : Z :=
  fold_left (fun acc b => 256 * acc + b) bs 0.

(** What a context keeps of a search result. *)
Definition candidate_of_result (r : SearchResult) : string * string * dict_value :=
  (sr_doc_id r, sr_content r, sr_metadata r).

Definition candidate_of_context (c : Context) : string * string * dict_value :=
  (c_doc_id c, c_content c, c_metadata c).

(** The component [n / 100] is a float from [0.0] up to, not including,
    [1.0]. *)
Definition hundredth_in_range (n : Z) : bool :=
  let x := Float.div (Float.of_int n) (Float.of_int 100) in
  Float.leb Float.zero x && Float.ltb x (Float.of_int 1).

(** An arithmetic exception of the similarity. *)
Definition arithmetic (e : exn) : Prop := e = OverflowError ∨ e = ZeroDivisionError.

Example md5_empty : MD5.hexdigest (Text.encode "") = "d41d8cd98f00b204e9800998ecf8427e".
Proof. vm_compute. reflexivity. Qed.

Example md5_abc : MD5.hexdigest (Text.encode "abc") = "900150983cd24fb0d6963f7d28e17f72".
Proof. vm_compute. reflexivity. Qed.

Example md5_a56 :
  MD5.hexdigest (Text.encode "aaaaaaaaaaaaaaaaaaaaaaaaaaaaaaaaaaaaaaaaaaaaaaaaaaaaaaaa")
  = "3b0c8ac703f828b04c6c197006d17218".
Proof. vm_compute. reflexivity. Qed.

Example md5_latin1 :
  MD5.hexdigest (Text.encode (String (ascii_of_N 233) (String "t" (String (ascii_of_N 233) ""))))
  = "deaf6a1e9612a4d8c221e68ee23d58d2".
Proof. vm_compute. reflexivity. Qed.

Example words_example : Text.words "  What is  Python " = ["what"; "is"; "python"].
Proof. vm_compute. reflexivity. Qed.

(** [generate_embedding("python")] starts with 0.77, 0.38, 0.19. *)
Example embedding_python :
  take 3 (EmbeddingGenerator.generate_embedding (EmbeddingGenerator.new 384) "python")
  = [S754_finite false 6935543426150564 (-53);
     S754_finite false 6845471433603154 (-54);
     S754_finite false 6845471433603154 (-55)].
Proof. vm_compute. reflexivity. Qed.

(** The end-to-end scenario: both documents are sources of the answer to
    ["What is Python"], with the similarities 0.7293521524100521 and
    0.6990099535621488 of the reference platform. *)
Example scenario_sources :
  r_sources <$>
    generate_response Reference.fsum Reference.pow_2 Reference.pow_half
      {| context_retriever :=
           {| doc_store := run Examples.two_documents;
              embedding_gen := EmbeddingGenerator.new 384 |} |}
      "What is Python" None "2024-01-01T00:00:02"
  = Ok [{| s_doc_id := "d1";
           s_relevance := S754_finite false 6569420163631560 (-53) |};
        {| s_doc_id := "d2";
           s_relevance := S754_finite false 6296121932781522 (-53) |}].
Proof. vm_compute. reflexivity. Qed.

(** [top_k = 0] and the empty store give the empty sequence. *)
Example top_k_zero :
  DocumentStore.search_documents (run Examples.two_documents) "python" 0 = Ok [].
Proof. vm_compute. reflexivity. Qed.

Example empty_store :
  DocumentStore.search_documents DocumentStore.new "python" 5 = Ok [].
Proof. vm_compute. reflexivity. Qed.

(** ** The inverted index *)

Section Index.
Implicit Types (self : DocumentStore) (index : gmap string (list string)).

Lemma index_word_lookup doc_id word index w :
  DocumentStore.index_word doc_id word index !! w =
  if decide (word = w) then Some (default [] (index !! w) ++ [doc_id])
  else index !! w.
Proof.
  unfold DocumentStore.index_word. rewrite lookup_insert.
  case_decide; by subst.
Qed.

(** The index after the loop over [set(words)]: one more [doc_id] under
    each word of the set, whatever the order of the set. *)
Lemma index_words_lookup doc_id index (words : gset string) w :
  set_fold (DocumentStore.index_word doc_id) index words !! w =
  if decide (w ∈ words) then Some (default [] (index !! w) ++ [doc_id])
  else index !! w.
Proof.
  revert w.
  refine (set_fold_ind_L (C := gset string)
    (fun r X => ∀ w, r !! w =
       if decide (w ∈ X) then Some (default [] (index !! w) ++ [doc_id])
       else index !! w) _ _ _ _ words).
  - intros w. by rewrite decide_False by set_solver.
  - intros x X r Hx IH w. rewrite index_word_lookup.
    destruct (decide (x = w)) as [->|Hne].
    + rewrite decide_True by set_solver.
      rewrite IH. by rewrite decide_False.
    + rewrite IH. destruct (decide (w ∈ X)).
      * by rewrite decide_True by set_solver.
      * rewrite decide_False; [done|].
      rewrite elem_of_union, elem_of_singleton. intros [?|?]; [congruence|done].
Qed.

Lemma entry_add_document self doc_id content metadata now w :
  entry (DocumentStore.add_document self doc_id content metadata now).1 w =
  if decide (w ∈ Text.words content) then entry self w ++ [doc_id]
  else entry self w.
Proof.
  unfold entry. simpl. rewrite index_words_lookup.
  destruct (decide (w ∈ Text.words content)) as [Hin|Hin].
  - rewrite decide_True by set_solver. done.
  - rewrite decide_False by set_solver. done.
Qed.

Lemma documents_add_document self doc_id content metadata now d :
  is_Some (documents (DocumentStore.add_document self doc_id content metadata now).1 !! d)
  ↔ d = doc_id ∨ is_Some (documents self !! d).
Proof.
  simpl. rewrite lookup_insert. case_decide; subst.
  - split; [by left | intros _; by eexists].
  - split; [by right | intros [?|?]; [congruence | done]].
Qed.

Lemma entry_listed self word doc_ids :
  document_index self !! word = Some doc_ids → entry self word = doc_ids.
Proof. unfold entry. by intros ->. Qed.

Lemma run_snoc ops op : run (ops ++ [op]) = run_operation (run ops) op.
Proof. unfold run. by rewrite fold_left_app. Qed.

(** Every listed [doc_id] has its document. *)
Lemma run_entry_documents ops word doc_id :
  doc_id ∈ entry (run ops) word → is_Some (documents (run ops) !! doc_id).
Proof.
  revert word doc_id. induction ops as [|op ops IH] using rev_ind;
    intros word doc_id.
  - unfold entry. simpl. rewrite lookup_empty. simpl. by intros ?%elem_of_nil.
  - rewrite run_snoc. destruct op as [d c m t| | |r m]; [|by apply IH..].
    unfold run_operation. rewrite entry_add_document. intros Hin.
    apply documents_add_document.
    case_decide.
    + apply elem_of_app in Hin as [Hin|Hin%list_elem_of_singleton]; eauto.
    + eauto.
Qed.

End Index.

(** C9. After any sequence of [DocumentStore] operations on a new store,
    every [doc_id] listed in an entry of the inverted index is a key of
    the document table: the index has no orphaned entry. *)
Theorem index_has_no_orphans (ops : list operation) (word : string)
    (doc_ids : list string) (doc_id : string) :
  document_index (run ops) !! word = Some doc_ids →
  doc_id ∈ doc_ids →
  is_Some (documents (run ops) !! doc_id).
Proof.
  intros Hword Hin. apply (run_entry_documents ops word).
  by rewrite (entry_listed _ _ _ Hword).
Qed.

(** ** Sorting and slicing *)

Section SortingFacts.
Context {A K : Type} (ltb : K → K → bool) (key : A → K).

Lemma insert_reverse_perm x l : insert_reverse ltb key x l ≡ₚ x :: l.
Proof.
  induction l as [|y l IH]; simpl; [done|].
  destruct (ltb (key x) (key y)); [|done].
  rewrite IH. apply Permutation_swap.
Qed.

Lemma sorted_reverse_perm l : sorted_reverse ltb key l ≡ₚ l.
Proof.
  induction l as [|x l IH]; simpl; [done|].
  by rewrite insert_reverse_perm, IH.
Qed.

(** [R x y]: [x] may stand in front of [y]. [P] holds of the elements
    whose keys [ltb] compares as a total order. *)
Variables (R : A → A → Prop) (P : A → Prop).
Hypothesis ordered :
  ∀ x y, P x → P y → if ltb (key x) (key y) then R y x else R x y.

Lemma insert_reverse_sorted x l :
  P x → Forall P l → Sorted R l → Sorted R (insert_reverse ltb key x l).
Proof.
  intros Hx. induction l as [|y l IH]; intros Hl Hs; simpl.
  - by repeat constructor.
  - apply Forall_cons in Hl as [Hy Hl].
    apply Sorted_inv in Hs as [Hs Hhd].
    pose proof (ordered x y Hx Hy) as Hxy.
    destruct (ltb (key x) (key y)).
    + constructor; [by apply IH|].
      destruct l as [|z l]; simpl; [by constructor|].
      destruct (ltb (key x) (key z)); constructor; [|done].
      by apply HdRel_inv in Hhd.
    + by repeat constructor.
Qed.

Lemma sorted_reverse_sorted l :
  Forall P l → Sorted R (sorted_reverse ltb key l).
Proof.
  induction l as [|x l IH]; intros Hl; simpl; [constructor|].
  apply Forall_cons in Hl as [Hx Hl].
  apply insert_reverse_sorted; [done| |by apply IH].
  rewrite sorted_reverse_perm. done.
Qed.

End SortingFacts.

Lemma slice_to_prefix {A} (k : Z) (l : list A) :
  ∃ rest, l = slice_to k l ++ rest.
Proof.
  unfold slice_to. destruct (k <? 0); eexists; symmetry; apply take_drop.
Qed.

Lemma StronglySorted_prefix {A} (R : A → A → Prop) (l1 l2 : list A) :
  StronglySorted R (l1 ++ l2) → StronglySorted R l1.
Proof.
  induction l1 as [|x l1 IH]; simpl; [constructor|].
  intros [Hs Hall]%StronglySorted_inv. constructor; [by apply IH|].
  by apply Forall_app in Hall as [? _].
Qed.

Lemma map_result_Forall2 {A B} (f : A → result B) (l : list A) :
  (∀ x, x ∈ l → ∃ y, f x = Ok y) →
  ∃ ys, map_result f l = Ok ys ∧ Forall2 (fun x y => f x = Ok y) l ys.
Proof.
  induction l as [|x l IH]; intros Hf; simpl.
  - exists []. by split.
  - destruct (Hf x) as [y Hy]; [by left|].
    destruct IH as (ys & Hys & Hall); [intros; apply Hf; by right|].
    exists (y :: ys). rewrite Hy. simpl. rewrite Hys. simpl.
    split; [done|by constructor].
Qed.

Lemma map_result_Ok_Forall2 {A B} (f : A → result B) (l : list A) ys :
  map_result f l = Ok ys → Forall2 (fun x y => f x = Ok y) l ys.
Proof.
  revert ys. induction l as [|x l IH]; intros ys; simpl.
  - intros [= <-]. constructor.
  - destruct (f x) as [y|] eqn:Hy; simpl; [|done].
    destruct (map_result f l) as [ys'|]; simpl; [|done].
    intros [= <-]. constructor; [done|by apply IH].
Qed.

(** ** Scoring *)

Section Scoring.
Implicit Types (scores : list (string * Z)) (self : DocumentStore).

Lemma get_bump scores d d' :
  get (DocumentStore.bump d' scores) d =
  get scores d + (if decide (d' = d) then 1 else 0).
Proof.
  induction scores as [|[k v] scores IH]; simpl.
  - repeat case_decide; lia.
  - destruct (decide (k = d')) as [->|Hk]; simpl.
    + repeat case_decide; lia.
    + rewrite IH. repeat case_decide; subst; lia || congruence.
Qed.

Lemma keys_bump scores d k :
  k ∈ (DocumentStore.bump d scores).*1 ↔ k = d ∨ k ∈ scores.*1.
Proof.
  induction scores as [|[k' v] scores IH]; simpl.
  - rewrite list_elem_of_singleton, elem_of_nil. tauto.
  - destruct (decide (k' = d)) as [->|Hk]; simpl;
      rewrite !elem_of_cons, ?IH; tauto.
Qed.

Lemma NoDup_bump scores d :
  NoDup scores.*1 → NoDup (DocumentStore.bump d scores).*1.
Proof.
  induction scores as [|[k v] scores IH]; simpl.
  - intros _. apply NoDup_singleton.
  - intros [Hk Hnd]%NoDup_cons.
    destruct (decide (k = d)) as [->|Hne]; simpl.
    + by apply NoDup_cons.
    + apply NoDup_cons. split; [|by apply IH].
      rewrite keys_bump. intros [?|?]; done.
Qed.

Lemma get_elem scores d v :
  NoDup scores.*1 → (d, v) ∈ scores → get scores d = v.
Proof.
  induction scores as [|[k v'] scores IH]; simpl.
  - by intros _ ?%elem_of_nil.
  - intros [Hk Hnd]%NoDup_cons [Heq|Hin]%elem_of_cons.
    + injection Heq as -> ->. by rewrite decide_True.
    + destruct (decide (k = d)) as [->|Hne]; [|by apply IH].
      destruct Hk. apply list_elem_of_fmap. by exists (d, v).
Qed.

Lemma get_bump_all scores doc_ids d :
  get (fold_left (fun sc doc_id => DocumentStore.bump doc_id sc) doc_ids scores) d =
  get scores d + Z.of_nat (length (filter (fun x => x = d) doc_ids)).
Proof.
  revert scores. induction doc_ids as [|x doc_ids IH]; intros scores; simpl.
  - lia.
  - rewrite IH, get_bump, filter_cons.
    destruct (decide (x = d)); simpl; lia.
Qed.

Lemma keys_bump_all scores doc_ids k :
  k ∈ (fold_left (fun sc doc_id => DocumentStore.bump doc_id sc) doc_ids scores).*1
  ↔ k ∈ doc_ids ∨ k ∈ scores.*1.
Proof.
  revert scores. induction doc_ids as [|x doc_ids IH]; intros scores; simpl.
  - rewrite elem_of_nil. tauto.
  - rewrite IH, keys_bump, elem_of_cons. tauto.
Qed.

Lemma NoDup_bump_all scores doc_ids :
  NoDup scores.*1 →
  NoDup (fold_left (fun sc doc_id => DocumentStore.bump doc_id sc) doc_ids scores).*1.
Proof.
  revert scores. induction doc_ids as [|x doc_ids IH]; intros scores; simpl.
  - done.
  - intros. by apply IH, NoDup_bump.
Qed.

Lemma score_word_entry self scores word :
  DocumentStore.score_word self scores word =
  fold_left (fun sc doc_id => DocumentStore.bump doc_id sc) (entry self word) scores.
Proof.
  unfold DocumentStore.score_word, entry.
  by destruct (document_index self !! word).
Qed.

Lemma get_score_words self words scores d :
  get (fold_left (DocumentStore.score_word self) words scores) d =
  get scores d + Z.of_nat (listings self words d).
Proof.
  unfold listings.
  revert scores. induction words as [|w words IH]; intros scores; simpl.
  - lia.
  - rewrite IH, score_word_entry, get_bump_all. lia.
Qed.

Lemma keys_score_words self words scores k :
  k ∈ (fold_left (DocumentStore.score_word self) words scores).*1 →
  k ∈ scores.*1 ∨ ∃ word, word ∈ words ∧ k ∈ entry self word.
Proof.
  revert scores. induction words as [|w words IH]; intros scores; simpl.
  - by left.
  - intros [Hk|(w' & Hw' & Hk)]%IH.
    + rewrite score_word_entry in Hk.
      apply keys_bump_all in Hk as [Hk|Hk]; [|by left].
      right. exists w. split; [by left|done].
    + right. exists w'. split; [by right|done].
Qed.

Lemma NoDup_score_words self words scores :
  NoDup scores.*1 →
  NoDup (fold_left (DocumentStore.score_word self) words scores).*1.
Proof.
  revert scores. induction words as [|w words IH]; intros scores; simpl.
  - done.
  - intros. apply IH. rewrite score_word_entry. by apply NoDup_bump_all.
Qed.

(** A [doc_id] that is listed once at most under each word is listed as
    often as there are words that list it. *)
Lemma listings_unique self words d :
  unique_entries self →
  listings self words d =
  length (filter (fun word => d ∈ entry self word) words).
Proof.
  intros Hu. unfold listings.
  induction words as [|w words IH]; simpl; [done|].
  rewrite filter_cons, IH.
  assert (length (filter (fun x => x = d) (entry self w)) =
          if decide (d ∈ entry self w) then 1%nat else 0%nat) as ->.
  { specialize (Hu w). induction (entry self w) as [|x l IHl].
    - destruct (decide (d ∈ [])) as [?%elem_of_nil|]; done.
    - apply NoDup_cons in Hu as [Hx Hl]. rewrite filter_cons.
      specialize (IHl Hl).
      destruct (decide (x = d)) as [->|Hne]; simpl; rewrite IHl.
      + destruct (decide (d ∈ l)); [done|].
        destruct (decide (d ∈ d :: l)) as [|Hnin]; [done|].
        destruct Hnin. by left.
      + destruct (decide (d ∈ l)), (decide (d ∈ x :: l)) as [Hin|Hnin]; try done.
        * destruct Hnin. by right.
        * apply elem_of_cons in Hin as [?|?]; congruence. }
  destruct (decide (d ∈ entry self w)); simpl; lia.
Qed.

End Scoring.

(** ** Keyword search *)

Section Search.
Implicit Types (self : DocumentStore).

Lemma sorted_doc_scores (scores : list (string * Z)) :
  StronglySorted by_score_descending (sorted_reverse Z.ltb snd scores).
Proof.
  apply Sorted_StronglySorted.
  - intros a b c. unfold by_score_descending. lia.
  - apply (sorted_reverse_sorted _ _ _ (fun _ => True)).
    + intros x y _ _. unfold by_score_descending.
      destruct (Z.ltb_spec x.2 y.2); lia.
    + by apply Forall_forall.
Qed.

Lemma ranked_docs_sorted self query top_k :
  StronglySorted by_score_descending (DocumentStore.ranked_docs self query top_k).
Proof.
  unfold DocumentStore.ranked_docs.
  destruct (slice_to_prefix top_k
    (sorted_reverse Z.ltb snd (DocumentStore.doc_scores self query))) as [rest Hrest].
  apply (StronglySorted_prefix _ _ rest). rewrite <- Hrest.
  apply sorted_doc_scores.
Qed.

Lemma ranked_docs_scored self query top_k e :
  e ∈ DocumentStore.ranked_docs self query top_k →
  e ∈ DocumentStore.doc_scores self query.
Proof.
  unfold DocumentStore.ranked_docs. intros Hin.
  destruct (slice_to_prefix top_k
    (sorted_reverse Z.ltb snd (DocumentStore.doc_scores self query))) as [rest Hrest].
  rewrite <- (sorted_reverse_perm Z.ltb snd). rewrite Hrest.
  apply elem_of_app. by left.
Qed.

Lemma doc_scores_get self query d v :
  (d, v) ∈ DocumentStore.doc_scores self query →
  v = Z.of_nat (listings self (Text.words query) d).
Proof.
  intros Hin. unfold DocumentStore.doc_scores in *.
  rewrite <- (get_elem _ d v (NoDup_score_words self _ [] NoDup_nil_2) Hin).
  by rewrite get_score_words.
Qed.

Lemma doc_scores_listed self query d v :
  (d, v) ∈ DocumentStore.doc_scores self query →
  ∃ word, word ∈ Text.words query ∧ d ∈ entry self word.
Proof.
  intros Hin. unfold DocumentStore.doc_scores in *.
  destruct (keys_score_words self (Text.words query) [] d) as [Hk|Hk]; [|by apply elem_of_nil in Hk|done].
  apply list_elem_of_fmap. by exists (d, v).
Qed.

Lemma render_fields self e r :
  DocumentStore.render self e = Ok r → sr_doc_id r = e.1 ∧ sr_score r = e.2.
Proof.
  destruct e as [d v]. simpl. destruct (documents self !! d); [|done].
  by intros [= <-].
Qed.

(** On a store with a history, [search_documents] finds the document of
    every ranked [doc_id]: it raises no [KeyError]. *)
Lemma search_documents_ok ops query top_k :
  ∃ results,
    DocumentStore.search_documents (run ops) query top_k = Ok results ∧
    Forall2 (fun e r => DocumentStore.render (run ops) e = Ok r)
            (DocumentStore.ranked_docs (run ops) query top_k) results.
Proof.
  apply map_result_Forall2. intros [d v] Hin%ranked_docs_scored.
  apply doc_scores_listed in Hin as (word & _ & Hd).
  apply run_entry_documents in Hd as [content Hc].
  simpl. rewrite Hc. by eexists.
Qed.

Lemma rendered_sorted self (ranked : list (string * Z)) results :
  Forall2 (fun e r => DocumentStore.render self e = Ok r) ranked results →
  StronglySorted by_score_descending ranked →
  StronglySorted (fun a b => sr_score b ≤ sr_score a) results.
Proof.
  induction 1 as [|e r ranked results He Hall IH]; [constructor|].
  intros [Hs Hhd]%StronglySorted_inv. constructor; [by apply IH|].
  apply render_fields in He as [_ He].
  clear IH Hs. induction Hall as [|e' r' ranked results He' Hall IH]; [constructor|].
  apply Forall_cons in Hhd as [Hle Hhd]. constructor; [|by apply IH].
  apply render_fields in He' as [_ He']. unfold by_score_descending in Hle. lia.
Qed.

End Search.

(** C1, amended. On a store none of whose index entries lists a [doc_id]
    twice, [search_documents] returns, and each returned document carries
    a score equal to the number of words of the query, a word repeated in
    the query counting once for each occurrence, whose index entry
    contains its [doc_id]; the returned sequence is in descending order of
    score. *)
Theorem search_scores_count_query_words (ops : list operation)
    (query : string) (top_k : Z) :
  unique_entries (run ops) →
  ∃ results,
    DocumentStore.search_documents (run ops) query top_k = Ok results ∧
    (∀ r, r ∈ results →
       sr_score r =
       Z.of_nat (length (matching_words (run ops) query (sr_doc_id r)))) ∧
    StronglySorted (fun a b => sr_score b ≤ sr_score a) results.
Proof.
  intros Hunique.
  destruct (search_documents_ok ops query top_k) as (results & Hres & Hall).
  exists results. split; [done|]. split.
  - intros r Hr.
    apply list_elem_of_lookup in Hr as [i Hi].
    destruct (Forall2_lookup_r _ _ _ _ _ Hall Hi) as ([d v] & He & Hrender).
    apply render_fields in Hrender as [-> ->]. simpl.
    apply list_elem_of_lookup_2, ranked_docs_scored, doc_scores_get in He.
    rewrite He. unfold matching_words. by rewrite listings_unique.
  - eapply rendered_sorted; [done|]. apply ranked_docs_sorted.
Qed.

(** C1, as stated, fails: a word that occurs twice in the query is counted
    twice. With the one document ["d1"] indexed under ["python"], the query
    ["python python"] has one distinct matching word and gives the score
    2. *)
Lemma repeated_query_word_scores_twice :
  let store := run [AddDocument "d1" "python" None "2024-01-01T00:00:00"] in
  ∃ r, DocumentStore.search_documents store "python python" 5 = Ok [r] ∧
       sr_doc_id r = "d1" ∧
       sr_score r = 2 ∧
       remove_dups (matching_words store "python python" "d1") = ["python"].
Proof. eexists. vm_compute. repeat split. Qed.

(** ** Histories that add each [doc_id] once *)

Lemma added_snoc ops op :
  added (ops ++ [op]) =
  added ops ++ match op with AddDocument d _ _ _ => [d] | _ => [] end.
Proof.
  unfold added. rewrite omap_app. f_equal. by destruct op.
Qed.

Lemma entry_added ops word d : d ∈ entry (run ops) word → d ∈ added ops.
Proof.
  revert d. induction ops as [|op ops IH] using rev_ind; intros d.
  - unfold entry. simpl. by rewrite lookup_empty.
  - rewrite run_snoc, added_snoc. destruct op as [d' c m t| | |r m];
      [|rewrite app_nil_r; by apply IH..].
    unfold run_operation. rewrite entry_add_document.
    case_decide; rewrite ?elem_of_app; [intros [?|?]|]; auto.
  Qed.

Lemma distinct_adds_unique_entries ops :
  NoDup (added ops) → unique_entries (run ops).
Proof.
  induction ops as [|op ops IH] using rev_ind; intros Hnd word.
  - unfold entry. simpl. rewrite lookup_empty. apply NoDup_nil_2.
  - rewrite added_snoc in Hnd. apply NoDup_app in Hnd as (Hops & Hnew & _).
    rewrite run_snoc. destruct op as [d c m t| | |r m]; [|by apply IH..].
    unfold run_operation. rewrite entry_add_document.
    case_decide; [|by apply IH].
    apply NoDup_app. split; [by apply IH|]. split; [|apply NoDup_singleton].
    intros x Hx%entry_added ->%list_elem_of_singleton.
    apply (Hnew d); [done|by left].
Qed.

Lemma search_scores_count_query_words_witness :
  unique_entries (run Examples.two_documents) ∧
  ∃ results,
    DocumentStore.search_documents (run Examples.two_documents)
      "What is Python python" 5 = Ok results ∧
    (∀ r, r ∈ results →
       sr_score r =
       Z.of_nat (length (matching_words (run Examples.two_documents)
                           "What is Python python" (sr_doc_id r)))) ∧
    StronglySorted (fun a b => sr_score b ≤ sr_score a) results.
Proof.
  assert (unique_entries (run Examples.two_documents)) as Hunique.
  { apply distinct_adds_unique_entries.
    apply (bool_decide_unpack (NoDup _)). by vm_compute. }
  split; [exact Hunique|].
  exact (search_scores_count_query_words Examples.two_documents
           "What is Python python" 5 Hunique).
Defined.

(** C2. Adding a document again lists its [doc_id] again under the words
    the two contents share: after ["d1"] is added twice with the content
    ["python"], the index entry of ["python"] holds ["d1"] twice. *)
Theorem added_twice_listed_twice :
  document_index (run Examples.added_twice) !! "python" = Some ["d1"; "d1"] ∧
  ¬ NoDup (entry (run Examples.added_twice) "python").
Proof.
  split; [by vm_compute|].
  assert (entry (run Examples.added_twice) "python" = ["d1"; "d1"]) as ->
    by (by vm_compute).
  intros [Hin _]%NoDup_cons. apply Hin. by left.
Qed.

Lemma index_has_no_orphans_witness :
  is_Some (documents (run Examples.two_documents) !! "d2").
Proof.
  apply (index_has_no_orphans Examples.two_documents "python" ["d1"; "d2"] "d2").
  - by vm_compute.
  - right. left.
Defined.

(** ** Negative [top_k] *)

Lemma map_result_take {A B} (f : A → result B) (l : list A) ys n :
  map_result f l = Ok ys → map_result f (take n l) = Ok (take n ys).
Proof.
  revert l ys. induction n as [|n IH]; intros [|x l] ys; simpl; try done.
  - by intros [= <-].
  - destruct (f x) as [y|]; simpl; [|done].
    destruct (map_result f l) as [ys'|] eqn:Hys; simpl; [|done].
    intros [= <-]. by rewrite (IH l ys').
Qed.

Lemma map_result_length {A B} (f : A → result B) (l : list A) ys :
  map_result f l = Ok ys → length ys = length l.
Proof.
  intros H%map_result_Ok_Forall2. symmetry. by eapply Forall2_length.
Qed.

(** C3, as stated, fails: with the two documents of the scenario, both
    indexed under ["python"], the call with [top_k = -1] raises nothing
    and returns the ranking without its last entry. *)
Lemma negative_top_k_returns :
  ∃ results,
    DocumentStore.search_documents (run Examples.two_documents) "python" (-1)
      = Ok results ∧
    sr_doc_id <$> results = ["d1"].
Proof. eexists. split; by vm_compute. Qed.

(** C3, amended. [search_documents] with a negative [top_k] raises no
    error: it returns the sequence that it returns when [top_k] is the
    number [n] of scored documents, without its last [- top_k] entries
    (the empty sequence when [n <= - top_k]). *)
Theorem negative_top_k_drops_last (ops : list operation) (query : string)
    (top_k : Z) :
  top_k < 0 →
  let n := length (DocumentStore.doc_scores (run ops) query) in
  ∃ full,
    DocumentStore.search_documents (run ops) query (Z.of_nat n) = Ok full ∧
    length full = n ∧
    DocumentStore.search_documents (run ops) query top_k =
      Ok (take (n - Z.to_nat (- top_k)) full).
Proof.
  intros Hneg n.
  destruct (search_documents_ok ops query (Z.of_nat n)) as (full & Hfull & _).
  exists full.
  set (sorted := sorted_reverse Z.ltb snd (DocumentStore.doc_scores (run ops) query)).
  assert (length sorted = n) as Hlen.
  { unfold sorted, n. by rewrite sorted_reverse_perm. }
  assert (DocumentStore.ranked_docs (run ops) query (Z.of_nat n) = sorted) as Hall.
  { unfold DocumentStore.ranked_docs, slice_to. fold sorted.
    destruct (Z.ltb_spec (Z.of_nat n) 0); [lia|].
    rewrite Nat2Z.id. apply firstn_all2. lia. }
  unfold DocumentStore.search_documents in *. rewrite Hall in Hfull |- *.
  split; [done|]. split.
  - apply map_result_length in Hfull. lia.
  - unfold DocumentStore.ranked_docs, slice_to. fold sorted.
    destruct (Z.ltb_spec top_k 0); [|lia].
    replace (Z.to_nat (Z.of_nat (length sorted) + top_k))
      with (n - Z.to_nat (- top_k))%nat by lia.
    by apply map_result_take.
Qed.

Lemma negative_top_k_drops_last_witness :
  ∃ full,
    DocumentStore.search_documents (run Examples.two_documents) "python" 2
      = Ok full ∧
    length full = 2%nat ∧
    DocumentStore.search_documents (run Examples.two_documents) "python" (-1)
      = Ok (take 1 full).
Proof.
  apply (negative_top_k_drops_last Examples.two_documents "python" (-1)). lia.
Defined.

(** ** The hash integer *)

Section Digest.

Lemma byte_at_is_byte x k : is_byte (MD5.byte_at x k).
Proof.
  unfold is_byte, MD5.byte_at. change 255 with (Z.ones 8).
  rewrite Z.land_ones by lia. apply Z.mod_pos_bound. lia.
Qed.

Lemma bytes_le_are_bytes n x : Forall is_byte (MD5.bytes_le n x).
Proof.
  unfold MD5.bytes_le. apply Forall_forall. intros b Hb.
  apply list_elem_of_fmap in Hb as (k & -> & _). apply byte_at_is_byte.
Qed.

Lemma digest_bytes msg :
  length (MD5.digest msg) = 16%nat ∧ Forall is_byte (MD5.digest msg).
Proof.
  unfold MD5.digest.
  destruct (fold_left MD5.compress _ MD5.init) as [[[a b] c] d].
  split; [done|]. repeat apply Forall_app_2; apply bytes_le_are_bytes.
Qed.

Lemma hex_value_digit n : 0 ≤ n < 16 → hex_value (MD5.hex_digit n) = Some n.
Proof.
  intros Hn.
  assert (n = 0 ∨ n = 1 ∨ n = 2 ∨ n = 3 ∨ n = 4 ∨ n = 5 ∨ n = 6 ∨ n = 7 ∨
          n = 8 ∨ n = 9 ∨ n = 10 ∨ n = 11 ∨ n = 12 ∨ n = 13 ∨ n = 14 ∨
          n = 15) as Hcases by lia.
  repeat (destruct Hcases as [->|Hcases]; [reflexivity|]). by subst.
Qed.

(** The integer read from the hexadecimal form of [bs]: below
    [(acc + 1) * 256 ^ length bs] when the digits read before made
    [acc]. *)
Lemma int_16_from_hex acc bs :
  0 ≤ acc → Forall is_byte bs →
  ∃ v, int_16_from acc (MD5.hex bs) = Some v ∧
       0 ≤ v < (acc + 1) * 256 ^ Z.of_nat (length bs).
Proof.
  intros Hacc Hbs. revert acc Hacc.
  induction Hbs as [|b bs Hb Hbs IH]; intros acc Hacc.
  - simpl. exists acc. split; [done|lia].
  - assert (0 ≤ Z.shiftr b 4 < 16) as Hhi.
    { rewrite Z.shiftr_div_pow2 by lia. unfold is_byte in Hb.
      change (2 ^ 4) with 16. split.
      - apply Z.div_pos; lia.
      - apply Z.div_lt_upper_bound; lia. }
    assert (0 ≤ Z.land b 15 < 16) as Hlo.
    { change 15 with (Z.ones 4). rewrite Z.land_ones by lia.
      apply Z.mod_pos_bound. lia. }
    cbn [MD5.hex int_16_from].
    rewrite (hex_value_digit _ Hhi). cbn [mbind option_bind].
    rewrite (hex_value_digit _ Hlo). cbn [mbind option_bind].
    destruct (IH (16 * (16 * acc + Z.shiftr b 4) + Z.land b 15)) as (v & Hv & Hrange);
      [lia|].
    exists v. split; [done|].
    rewrite length_cons, Nat2Z.inj_succ, Z.pow_succ_r by lia.
    split; [lia|].
    eapply Z.lt_le_trans; [apply Hrange|].
    replace ((acc + 1) * (256 * 256 ^ Z.of_nat (length bs)))
      with (256 * (acc + 1) * 256 ^ Z.of_nat (length bs)) by ring.
    apply Z.mul_le_mono_nonneg_r; [apply Z.pow_nonneg; lia|lia].
Qed.

(** The hexadecimal digest always reads as an integer, of 128 bits. *)
Lemma hexdigest_int msg :
  ∃ v, int_16 (MD5.hexdigest msg) = Some v ∧ 0 ≤ v < 2 ^ 128.
Proof.
  unfold MD5.hexdigest.
  destruct (digest_bytes msg) as [Hlen Hbytes].
  destruct (int_16_from_hex 0 _ ltac:(lia) Hbytes) as (v & Hv & Hrange).
  rewrite Hlen in Hrange.
  change ((0 + 1) * 256 ^ Z.of_nat 16) with (2 ^ 128) in Hrange.
  exists v. split; [|done].
  destruct (MD5.digest msg) as [|b bs]; [done|].
  unfold int_16. cbn [MD5.hex]. cbn [MD5.hex] in Hv. by rewrite Hv.
Qed.

Lemma hash_int_parsed text :
  int_16 (MD5.hexdigest (Text.encode text)) =
  Some (EmbeddingGenerator.hash_int text).
Proof.
  unfold EmbeddingGenerator.hash_int.
  by destruct (hexdigest_int (Text.encode text)) as (v & -> & _).
Qed.

(** [hash_int] is a 128-bit integer. *)
Lemma hash_int_range text :
  0 ≤ EmbeddingGenerator.hash_int text < 2 ^ 128.
Proof.
  destruct (hexdigest_int (Text.encode text)) as (v & Hv & Hrange).
  rewrite hash_int_parsed in Hv. by injection Hv as ->.
Qed.

End Digest.

(** ** Embeddings *)

Section Embedding.
Implicit Types (self : EmbeddingGenerator).

Lemma generate_embedding_lookup self text i x :
  EmbeddingGenerator.generate_embedding self text !! i = Some x →
  x = EmbeddingGenerator.component (EmbeddingGenerator.hash_int text) i.
Proof.
  unfold EmbeddingGenerator.generate_embedding.
  rewrite list_lookup_fmap. intros Hx.
  destruct (seq 0 _ !! i) as [j|] eqn:Hj; [|done].
  apply lookup_seq in Hj as [-> _]. by injection Hx as <-.
Qed.

Lemma component_high text i :
  (128 ≤ i)%nat →
  EmbeddingGenerator.component (EmbeddingGenerator.hash_int text) i = Float.zero.
Proof.
  intros Hi. unfold EmbeddingGenerator.component.
  pose proof (hash_int_range text) as Hrange.
  rewrite Z.shiftr_div_pow2 by lia.
  rewrite Z.div_small; [reflexivity|].
  split; [lia|]. eapply Z.lt_le_trans; [apply Hrange|].
  apply Z.pow_le_mono_r; lia.
Qed.

Lemma store_all_dim self stored :
  embedding_dim (store_all self stored) = embedding_dim self.
Proof.
  revert self. induction stored as [|[d e] stored IH]; intros self; [done|].
  unfold store_all in *. simpl. by rewrite IH.
Qed.

End Embedding.

(** C5. [generate_embedding] is a function of its text: whatever
    embeddings have been stored in the generator between two calls, the two
    calls on one text return the same vector, component for component; of
    the generator it reads the dimension, set when the generator is made,
    and nothing else. *)
Theorem generate_embedding_deterministic (self : EmbeddingGenerator)
    (text : string) :
  (∀ stored : list (string * list float),
     EmbeddingGenerator.generate_embedding (store_all self stored) text =
     EmbeddingGenerator.generate_embedding self text) ∧
  (∀ other : EmbeddingGenerator,
     embedding_dim other = embedding_dim self →
     EmbeddingGenerator.generate_embedding other text =
     EmbeddingGenerator.generate_embedding self text).
Proof.
  split.
  - intros stored. unfold EmbeddingGenerator.generate_embedding.
    by rewrite store_all_dim.
  - intros other Hdim. unfold EmbeddingGenerator.generate_embedding.
    by rewrite Hdim.
Qed.

Lemma generate_embedding_deterministic_witness :
  EmbeddingGenerator.generate_embedding
    (EmbeddingGenerator.store_embedding (EmbeddingGenerator.new 384) "d1"
       [Float.zero]) "python" =
  EmbeddingGenerator.generate_embedding (EmbeddingGenerator.new 384) "python".
Proof.
  apply (proj2 (generate_embedding_deterministic (EmbeddingGenerator.new 384)
                  "python")).
  reflexivity.
Defined.

(** C10. Every component of an embedding at an index from 128 on is
    exactly [0.0], for every text: beyond the first 128 components the
    vector does not depend on the text. *)
Theorem components_from_128_are_zero (self : EmbeddingGenerator)
    (text : string) (i : nat) :
  (128 ≤ i)%nat →
  (∀ x, EmbeddingGenerator.generate_embedding self text !! i = Some x →
        x = Float.zero) ∧
  (∀ text', EmbeddingGenerator.generate_embedding self text' !! i =
            EmbeddingGenerator.generate_embedding self text !! i).
Proof.
  intros Hi. split.
  - intros x ->%generate_embedding_lookup. by apply component_high.
  - intros text'. unfold EmbeddingGenerator.generate_embedding.
    rewrite !list_lookup_fmap. destruct (seq 0 _ !! i) as [j|] eqn:Hj; [|done].
    apply lookup_seq in Hj as [-> _]. simpl.
    by rewrite !component_high.
Qed.

Lemma components_from_128_are_zero_witness :
  (∀ x, EmbeddingGenerator.generate_embedding (EmbeddingGenerator.new 384)
          "python" !! 128%nat = Some x → x = Float.zero) ∧
  (∀ text', EmbeddingGenerator.generate_embedding (EmbeddingGenerator.new 384)
              text' !! 128%nat =
            EmbeddingGenerator.generate_embedding (EmbeddingGenerator.new 384)
              "python" !! 128%nat).
Proof.
  apply (components_from_128_are_zero (EmbeddingGenerator.new 384) "python" 128).
  lia.
Defined.

(** ** Similarity *)

Lemma mul_comm (x y : float) : Float.mul x y = Float.mul y x.
Proof.
  destruct x as [sx|sx| |sx mx ex], y as [sy|sy| |sy my ey];
    unfold Float.mul, SFmul; try done;
    try (by rewrite (xorb_comm sx sy)).
  by rewrite (xorb_comm sx sy), (Pos.mul_comm mx my), (Z.add_comm ex ey).
Qed.

Section SimilarityFacts.
Variable fsum : list float → float.
Variable pow_2 pow_half : float → option float.

Lemma dot_product_comm emb1 emb2 :
  dot_product fsum emb1 emb2 = dot_product fsum emb2 emb1.
Proof.
  unfold dot_product. f_equal.
  revert emb2. induction emb1 as [|a emb1 IH]; intros [|b emb2]; simpl; try done.
  by rewrite mul_comm, IH.
Qed.

Lemma overflow_raise r e : overflow r = Raise e → e = OverflowError.
Proof. destruct r; simpl; congruence. Qed.

Lemma squares_raise emb e :
  map_result (fun a => overflow (pow_2 a)) emb = Raise e → e = OverflowError.
Proof.
  induction emb as [|a emb IH]; simpl; [done|].
  destruct (overflow (pow_2 a)) eqn:Ha; simpl.
  - destruct (map_result _ emb); simpl; [done|]. intros [= <-]. by apply IH.
  - intros [= <-]. by apply overflow_raise in Ha.
Qed.

(** The only exception of a magnitude is the [OverflowError] of [**]. *)
Lemma magnitude_raise emb e :
  magnitude fsum pow_2 pow_half emb = Raise e → e = OverflowError.
Proof.
  unfold magnitude.
  destruct (map_result _ emb) as [squares|e'] eqn:Hsq; simpl.
  - apply overflow_raise.
  - intros [= <-]. by apply squares_raise in Hsq.
Qed.

Lemma similarity_score_divisions self emb1 emb2 numerator denominator :
  Division numerator denominator ∈
    (similarity_score fsum pow_2 pow_half self emb1 emb2).1 →
  ∃ magnitude1 magnitude2,
    magnitude fsum pow_2 pow_half emb1 = Ok magnitude1 ∧
    magnitude fsum pow_2 pow_half emb2 = Ok magnitude2 ∧
    Float.eqb magnitude1 Float.zero = false ∧
    Float.eqb magnitude2 Float.zero = false ∧
    denominator = Float.mul magnitude1 magnitude2.
Proof.
  unfold similarity_score.
  destruct (magnitude _ _ _ emb1) as [m1|]; [|by intros ?%elem_of_nil].
  destruct (magnitude _ _ _ emb2) as [m2|]; [|by intros ?%elem_of_nil].
  destruct (Float.eqb m1 Float.zero) eqn:H1; [by intros ?%elem_of_nil|].
  destruct (Float.eqb m2 Float.zero) eqn:H2; [by intros ?%elem_of_nil|].
  simpl. intros [= _ ->]%list_elem_of_singleton. by exists m1, m2.
Qed.

End SimilarityFacts.

(** C6. [similarity_score] is symmetric: for every two vectors, on every
    platform, the two orders of the arguments give the same outcome, the
    same float or the same exception, after the same divisions. *)
Theorem similarity_score_symmetric (fsum : list float → float)
    (pow_2 pow_half : float → option float) (self : EmbeddingGenerator)
    (emb1 emb2 : list float) :
  similarity_score fsum pow_2 pow_half self emb1 emb2 =
  similarity_score fsum pow_2 pow_half self emb2 emb1.
Proof.
  unfold similarity_score. rewrite (dot_product_comm fsum emb2 emb1).
  destruct (magnitude fsum pow_2 pow_half emb1) as [m1|e1] eqn:H1,
           (magnitude fsum pow_2 pow_half emb2) as [m2|e2] eqn:H2; try done.
  - by rewrite (orb_comm (Float.eqb m2 Float.zero)), (mul_comm m2 m1).
  - apply magnitude_raise in H1, H2. by subst.
Qed.

(** C7, as stated, fails on the reference platform: the first vector has
    magnitude zero, the square of the component [2^600] of the second is
    out of range, and [similarity_score] raises [OverflowError] where the
    claim has it return [0.0]. *)
Lemma zero_magnitude_overflow :
  let big := S754_finite false 4503599627370496 548 in
  magnitude Reference.fsum Reference.pow_2 Reference.pow_half [Float.zero]
    = Ok Float.zero ∧
  (similarity_score Reference.fsum Reference.pow_2 Reference.pow_half
     (EmbeddingGenerator.new 384) [Float.zero] [big]).2 = Raise OverflowError.
Proof. split; by vm_compute. Qed.

(** C7, amended. For every two vectors whose magnitudes are both computed
    (no [**] is out of range): if either magnitude is zero,
    [similarity_score] returns exactly [0.0] and divides nothing. And for
    every two vectors, a division is carried out only when both magnitudes
    are computed and nonzero, its divisor being their product. *)
Theorem zero_magnitude_returns_zero (fsum : list float → float)
    (pow_2 pow_half : float → option float) (self : EmbeddingGenerator)
    (emb1 emb2 : list float) :
  (∀ magnitude1 magnitude2,
     magnitude fsum pow_2 pow_half emb1 = Ok magnitude1 →
     magnitude fsum pow_2 pow_half emb2 = Ok magnitude2 →
     Float.eqb magnitude1 Float.zero = true ∨
     Float.eqb magnitude2 Float.zero = true →
     similarity_score fsum pow_2 pow_half self emb1 emb2 = ([], Ok Float.zero)) ∧
  (∀ numerator denominator,
     Division numerator denominator ∈
       (similarity_score fsum pow_2 pow_half self emb1 emb2).1 →
     ∃ magnitude1 magnitude2,
       magnitude fsum pow_2 pow_half emb1 = Ok magnitude1 ∧
       magnitude fsum pow_2 pow_half emb2 = Ok magnitude2 ∧
       Float.eqb magnitude1 Float.zero = false ∧
       Float.eqb magnitude2 Float.zero = false ∧
       denominator = Float.mul magnitude1 magnitude2).
Proof.
  split.
  - intros m1 m2 H1 H2 Hzero. unfold similarity_score. rewrite H1, H2.
    destruct Hzero as [-> | ->]; [done|]. by rewrite orb_true_r.
  - apply similarity_score_divisions.
Qed.

Lemma zero_magnitude_returns_zero_witness :
  similarity_score Reference.fsum Reference.pow_2 Reference.pow_half
    (EmbeddingGenerator.new 384) [Float.zero] [Float.of_int 1]
  = ([], Ok Float.zero).
Proof.
  apply (proj1 (zero_magnitude_returns_zero Reference.fsum Reference.pow_2
                  Reference.pow_half (EmbeddingGenerator.new 384)
                  [Float.zero] [Float.of_int 1]) Float.zero (Float.of_int 1)).
  - vm_compute. reflexivity.
  - vm_compute. reflexivity.
  - left. vm_compute. reflexivity.
Defined.

(** ** The order of floats *)

Lemma compare_antisym (x y : float) :
  SFcompare y x = CompOpp <$> SFcompare x y.
Proof.
  destruct x as [sx|sx| |sx mx ex], y as [sy|sy| |sy my ey]; simpl;
    repeat match goal with s : bool |- _ => destruct s end; simpl; try done;
    change (Pos.compare_cont Eq) with Pos.compare;
    rewrite (Z.compare_antisym ey ex), (Pos.compare_antisym my mx);
    destruct (ey ?= ex); simpl; try done.
  all: try by rewrite CompOpp_involutive.
Qed.

Lemma leb_trans (x y z : float) :
  Float.leb x y = true → Float.leb y z = true → Float.leb x z = true.
Proof.
  unfold Float.leb, SFleb.
  destruct x as [sx|sx| |sx mx ex], y as [sy|sy| |sy my ey], z as [sz|sz| |sz mz ez];
    simpl; try done;
    repeat match goal with s : bool |- _ => destruct s end; simpl; try done;
    change (Pos.compare_cont Eq) with Pos.compare;
    repeat match goal with
    | |- context [Z.compare ?a ?b] => destruct (Z.compare_spec a b)
    | |- context [Pos.compare ?a ?b] => destruct (Pos.compare_spec a b)
    end; simpl; try done; try lia.
Qed.

Lemma ltb_leb (x y : float) : Float.ltb x y = true → Float.leb x y = true.
Proof.
  unfold Float.ltb, Float.leb, SFltb, SFleb.
  by destruct (SFcompare x y) as [[]|].
Qed.

(** Floats that are not NaN are totally ordered. *)
Lemma not_ltb_leb (x y : float) :
  Float.is_nan x = false → Float.is_nan y = false →
  Float.ltb x y = false → Float.leb y x = true.
Proof.
  unfold Float.ltb, Float.leb, SFltb, SFleb. rewrite (compare_antisym x y).
  intros Hx Hy. destruct (SFcompare x y) as [[]|] eqn:Hc; simpl; try done.
  destruct x, y; done.
Qed.

Lemma eqb_not_ltb (x y v : float) :
  Float.eqb x v = true → Float.eqb y v = true → Float.ltb x y = false.
Proof.
  unfold Float.eqb, Float.ltb, SFeqb, SFltb.
  destruct x as [sx|sx| |sx mx ex], y as [sy|sy| |sy my ey], v as [sv|sv| |sv mv ev];
    simpl; try done;
    repeat match goal with s : bool |- _ => destruct s end; simpl; try done;
    change (Pos.compare_cont Eq) with Pos.compare;
    repeat match goal with
    | |- context [Z.compare ?a ?b] => destruct (Z.compare_spec a b)
    | |- context [Pos.compare ?a ?b] => destruct (Pos.compare_spec a b)
    end; simpl; try done; try lia.
Qed.

(** ** Context retrieval *)

(** The sort is stable: contexts of equal similarity keep their order. *)
Lemma insert_reverse_tied (x : Context) (l : list Context) (v : float) :
  filter (fun c => tied v c = true) (insert_reverse Float.ltb c_similarity x l) =
  filter (fun c => tied v c = true) (x :: l).
Proof.
  induction l as [|y l IH]; [done|]. cbn [insert_reverse].
  destruct (Float.ltb (c_similarity x) (c_similarity y)) eqn:Hlt; [|done].
  rewrite filter_cons, IH, !filter_cons.
  destruct (decide (tied v y = true)) as [Hy|], (decide (tied v x = true)) as [Hx|];
    try done.
  unfold tied in Hx, Hy. by rewrite (eqb_not_ltb _ _ _ Hx Hy) in Hlt.
Qed.

Lemma sorted_reverse_tied (l : list Context) (v : float) :
  filter (fun c => tied v c = true) (sorted_reverse Float.ltb c_similarity l) =
  filter (fun c => tied v c = true) l.
Proof.
  induction l as [|x l IH]; [done|]. cbn [sorted_reverse foldr].
  fold (sorted_reverse Float.ltb c_similarity l).
  by rewrite insert_reverse_tied, !filter_cons, IH.
Qed.

Lemma is_numberb_is_number outcome : is_numberb outcome = true → is_number outcome.
Proof.
  destruct outcome as [x|]; simpl; [|done].
  intros Hx%negb_true_iff. by exists x.
Qed.

Section Retrieval.
Variable fsum : list float → float.
Variable pow_2 pow_half : float → option float.
Implicit Types (self : ContextRetriever) (found : list SearchResult).

Lemma score_context_Ok self query_embedding r c :
  score_context fsum pow_2 pow_half self query_embedding r = Ok c →
  c_doc_id c = sr_doc_id r ∧
  (similarity_score fsum pow_2 pow_half (embedding_gen self) query_embedding
     (EmbeddingGenerator.generate_embedding (embedding_gen self) (sr_content r))).2
  = Ok (c_similarity c).
Proof.
  unfold score_context.
  destruct (similarity_score _ _ _ _ _ _).2 as [x|]; simpl; [|done].
  by intros [= <-].
Qed.

Lemma sorted_by_similarity (contexts : list Context) :
  Forall (fun c => Float.is_nan (c_similarity c) = false) contexts →
  StronglySorted by_similarity_descending
    (sorted_reverse Float.ltb c_similarity contexts).
Proof.
  intros Hnumbers. apply Sorted_StronglySorted.
  - intros a b c Hab Hbc. unfold by_similarity_descending in *.
    by eapply leb_trans.
  - apply (sorted_reverse_sorted _ _ _
             (fun c => Float.is_nan (c_similarity c) = false)); [|done].
    intros x y Hx Hy. unfold by_similarity_descending.
    destruct (Float.ltb _ _) eqn:Hlt.
    + by apply ltb_leb.
    + by apply not_ltb_leb.
Qed.

Lemma rank_context_sorted self query_embedding found :
  (∀ r, r ∈ found →
     is_number (similarity_score fsum pow_2 pow_half (embedding_gen self)
                  query_embedding
                  (EmbeddingGenerator.generate_embedding (embedding_gen self)
                     (sr_content r))).2) →
  ∃ context,
    rank_context fsum pow_2 pow_half self query_embedding found = Ok context ∧
    StronglySorted by_similarity_descending context ∧
    c_doc_id <$> context ≡ₚ sr_doc_id <$> found ∧
    ∀ x, c_doc_id <$> filter (fun c => tied x c = true) context =
         sr_doc_id <$> filter (fun r => tied_candidate fsum pow_2 pow_half
                                          (embedding_gen self) query_embedding x r
                                        = true) found.
Proof.
  intros Hnumbers. unfold rank_context.
  destruct (map_result_Forall2
              (score_context fsum pow_2 pow_half self query_embedding) found)
    as (contexts & -> & Hall).
  { intros r (x & Hx & _)%Hnumbers. unfold score_context. rewrite Hx.
    by eexists. }
  eexists. split; [done|]. split; [|split].
  - apply sorted_by_similarity.
    apply Forall_forall. intros c Hc.
    apply list_elem_of_lookup in Hc as [i Hi].
    destruct (Forall2_lookup_r _ _ _ _ _ Hall Hi) as (r & Hr & Hrc).
    apply score_context_Ok in Hrc as [_ Hsim].
    destruct (Hnumbers r) as (x & Hx & Hnan);
      [by eapply list_elem_of_lookup_2|].
    rewrite Hx in Hsim. by injection Hsim as <-.
  - rewrite sorted_reverse_perm. clear Hnumbers.
    induction Hall as [|r c found contexts Hrc Hall IH]; [done|].
    apply score_context_Ok in Hrc as [Hid _].
    cbn [fmap list_fmap]. rewrite Hid. by apply Permutation_skip.
  - intros x. cbn [mbind result_bind]. rewrite sorted_reverse_tied.
    clear Hnumbers.
    induction Hall as [|r c found contexts Hrc Hall IH]; [done|].
    apply score_context_Ok in Hrc as [Hid Hsim].
    assert (tied_candidate fsum pow_2 pow_half (embedding_gen self)
              query_embedding x r = tied x c) as Htied.
    { unfold tied_candidate. by rewrite Hsim. }
    rewrite !filter_cons.
    destruct (decide (tied x c = true)) as [Hc|Hc];
      destruct (decide (tied_candidate _ _ _ _ _ x r = true)) as [Hr|Hr];
      rewrite Htied in Hr; try done.
    cbn [fmap list_fmap]. by rewrite Hid, IH.
Qed.

End Retrieval.

(** C4, amended. When the similarity of every candidate is a number,
    [retrieve_context] returns the candidates that the keyword search
    selected in descending order of similarity, and the candidates whose
    similarities compare as equal stay in the order of the keyword search,
    which is the order of their keyword scores. *)
Theorem retrieve_context_sorted_by_similarity (fsum : list float → float)
    (pow_2 pow_half : float → option float) (ops : list operation)
    (gen : EmbeddingGenerator) (query : string) (top_k : Z) :
  let self := {| doc_store := run ops; embedding_gen := gen |} in
  let query_embedding := EmbeddingGenerator.generate_embedding gen query in
  (∀ found r,
     DocumentStore.search_documents (run ops) query top_k = Ok found →
     r ∈ found →
     is_number (similarity_score fsum pow_2 pow_half gen query_embedding
                  (EmbeddingGenerator.generate_embedding gen (sr_content r))).2) →
  ∃ found context,
    DocumentStore.search_documents (run ops) query top_k = Ok found ∧
    retrieve_context fsum pow_2 pow_half self query top_k = Ok context ∧
    StronglySorted by_similarity_descending context ∧
    c_doc_id <$> context ≡ₚ sr_doc_id <$> found ∧
    ∀ x : float,
      c_doc_id <$> filter (fun c => tied x c = true) context =
      sr_doc_id <$> filter (fun r => tied_candidate fsum pow_2 pow_half gen
                                       query_embedding x r = true) found.
Proof.
  intros self query_embedding Hnumbers.
  destruct (search_documents_ok ops query top_k) as (found & Hfound & _).
  destruct (rank_context_sorted fsum pow_2 pow_half self query_embedding found)
    as (context & Hrank & Hsorted & Hperm & Hties).
  { intros r Hr. by apply (Hnumbers found). }
  exists found, context. split; [done|].
  unfold retrieve_context. cbn [doc_store embedding_gen self].
  rewrite Hfound. cbn [mbind result_bind].
  by repeat split.
Qed.

Lemma retrieve_context_sorted_by_similarity_witness :
  let gen := EmbeddingGenerator.new 384 in
  let self := {| doc_store := run Examples.two_documents; embedding_gen := gen |} in
  ∃ found context,
    DocumentStore.search_documents (run Examples.two_documents) "What is Python" 3
      = Ok found ∧
    retrieve_context Reference.fsum Reference.pow_2 Reference.pow_half self
      "What is Python" 3 = Ok context ∧
    StronglySorted by_similarity_descending context ∧
    c_doc_id <$> context ≡ₚ sr_doc_id <$> found ∧
    ∀ x : float,
      c_doc_id <$> filter (fun c => tied x c = true) context =
      sr_doc_id <$> filter (fun r => tied_candidate Reference.fsum Reference.pow_2
                                       Reference.pow_half gen
                                       (EmbeddingGenerator.generate_embedding gen
                                          "What is Python") x r = true) found.
Proof.
  apply (retrieve_context_sorted_by_similarity Reference.fsum Reference.pow_2
           Reference.pow_half Examples.two_documents (EmbeddingGenerator.new 384)
           "What is Python" 3).
  intros found r Hfound Hr.
  vm_compute in Hfound. injection Hfound as <-.
  apply is_numberb_is_number.
  apply elem_of_cons in Hr as [->|Hr]; [by vm_compute|].
  apply list_elem_of_singleton in Hr as ->. by vm_compute.
Defined.

(** C4, as stated, fails: the keyword score decides the order of
    candidates of equal similarity. The two stores hold the documents d1
    and d2, added in this order, and the query is ["python beta"]. In both
    stores the search selects d1 and d2 with the same excerpt, and the two
    similarities are one float. The word [beta] is in d2 in the first
    store and in d1 in the second: the keyword scores alone differ, and
    [retrieve_context] returns d2 before d1 for the first store and d1
    before d2 for the second. *)
Lemma keyword_score_orders_equal_similarities :
  let gen := EmbeddingGenerator.new 384 in
  let retrieve ops :=
    retrieve_context Reference.fsum Reference.pow_2 Reference.pow_half
      {| doc_store := run ops; embedding_gen := gen |} "python beta" 3 in
  let search ops := DocumentStore.search_documents (run ops) "python beta" 3 in
  ∃ similarity,
    Float.is_nan similarity = false ∧
    (fmap (M := list) (fun r => (sr_doc_id r, sr_score r))) <$>
      search Examples.beta_in_d2 = Ok [("d2", 2); ("d1", 1)] ∧
    (fmap (M := list) (fun r => (sr_doc_id r, sr_score r))) <$>
      search Examples.beta_in_d1 = Ok [("d1", 2); ("d2", 1)] ∧
    (fmap (M := list) (fun c => (c_doc_id c, c_content c, c_similarity c))) <$>
      retrieve Examples.beta_in_d2 =
      Ok [("d2", Examples.excerpt, similarity); ("d1", Examples.excerpt, similarity)] ∧
    (fmap (M := list) (fun c => (c_doc_id c, c_content c, c_similarity c))) <$>
      retrieve Examples.beta_in_d1 =
      Ok [("d1", Examples.excerpt, similarity); ("d2", Examples.excerpt, similarity)].
Proof.
  eexists. split; [|split; [|split; [|split]]]; cycle 1.
  - by vm_compute.
  - by vm_compute.
  - vm_compute. reflexivity.
  - by vm_compute.
  - by vm_compute.
Qed.

(** ** Response assembly *)

Lemma doc_scores_no_match (self : DocumentStore) (query : string) :
  (∀ word, word ∈ Text.words query → entry self word = []) →
  DocumentStore.doc_scores self query = [].
Proof.
  unfold DocumentStore.doc_scores.
  induction (Text.words query) as [|w words IH]; intros Hempty; simpl; [done|].
  rewrite score_word_entry, Hempty by (by left). simpl.
  apply IH. intros word Hword. apply Hempty. by right.
Qed.

Lemma append_empty_r (s : string) : s +:+ "" = s.
Proof.
  induction s as [|c s IH]; [done|].
  change (String c (s +:+ "") = String c s). by f_equal.
Qed.

(** C8. For every query none of whose words has a document listed in the
    index, [generate_response] returns a response with [context_used]
    equal to 0, no sources, and the text ["I couldn't find relevant
    information about: "] followed by the query, so that the text contains
    the query. *)
Theorem no_match_fallback (fsum : list float → float)
    (pow_2 pow_half : float → option float) (self : ResponseGenerator)
    (query : string) (student_id : option string) (now : string) :
  (∀ word, word ∈ Text.words query →
           entry (doc_store (context_retriever self)) word = []) →
  generate_response fsum pow_2 pow_half self query student_id now =
    Ok {| r_query := query;
          r_response := "I couldn't find relevant information about: " +:+ query;
          r_context_used := 0;
          r_sources := [];
          r_student_id := student_id;
          r_generated_at := now |} ∧
  contains ("I couldn't find relevant information about: " +:+ query) query.
Proof.
  intros Hempty. split.
  - unfold generate_response, retrieve_context, DocumentStore.search_documents,
      DocumentStore.ranked_docs.
    by rewrite (doc_scores_no_match _ _ Hempty).
  - exists "I couldn't find relevant information about: ", "".
    by rewrite append_empty_r.
Qed.

Lemma no_match_fallback_witness :
  let self := {| context_retriever :=
                   {| doc_store := run Examples.two_documents;
                      embedding_gen := EmbeddingGenerator.new 384 |} |} in
  generate_response Reference.fsum Reference.pow_2 Reference.pow_half self
    "quantum" (Some "STU001") "2024-01-01T00:00:02" =
    Ok {| r_query := "quantum";
          r_response := "I couldn't find relevant information about: quantum";
          r_context_used := 0;
          r_sources := [];
          r_student_id := Some "STU001";
          r_generated_at := "2024-01-01T00:00:02" |} ∧
  contains "I couldn't find relevant information about: quantum" "quantum".
Proof.
  apply (no_match_fallback Reference.fsum Reference.pow_2 Reference.pow_half
           {| context_retriever :=
                {| doc_store := run Examples.two_documents;
                   embedding_gen := EmbeddingGenerator.new 384 |} |}
           "quantum" (Some "STU001") "2024-01-01T00:00:02").
  intros word Hword. vm_compute in Hword.
  apply list_elem_of_singleton in Hword as ->. by vm_compute.
Defined.

(** ** The store as a function of its history *)

Lemma listed_under_snoc word ops op :
  listed_under word (ops ++ [op]) =
  listed_under word ops ++
  match op with
  | AddDocument d c _ _ => if decide (word ∈ Text.words c) then [d] else []
  | _ => []
  end.
Proof.
  unfold listed_under. rewrite omap_app. f_equal.
  destruct op as [d c m t| | |r m]; simpl; [|done..]. by case_decide.
Qed.

Lemma entry_history (ops : list operation) (word : string) :
  entry (run ops) word = listed_under word ops.
Proof.
  induction ops as [|op ops IH] using rev_ind.
  - unfold entry. simpl. by rewrite lookup_empty.
  - rewrite run_snoc, listed_under_snoc.
    destruct op as [d c m t| | |r m]; [|by rewrite app_nil_r..].
    unfold run_operation. rewrite entry_add_document, IH.
    by case_decide; [|rewrite app_nil_r].
Qed.

(** X1. The index entry of a word lists the [doc_id]s of the calls of
    [add_document] whose content has the word, in the order of the calls:
    a [doc_id] stays listed under the words of a content that a later call
    has replaced, and is listed once more when it is added again. A word
    that no content has had is no key of the index. *)
Theorem index_entry_history (ops : list operation) (word : string) :
  entry (run ops) word = listed_under word ops ∧
  document_index (run ops) !! word =
    match listed_under word ops with
    | [] => None
    | doc_ids => Some doc_ids
    end.
Proof.
  induction ops as [|op ops [IHentry IHindex]] using rev_ind.
  - split; [|done]. unfold entry. simpl. by rewrite lookup_empty.
  - rewrite run_snoc, listed_under_snoc.
    destruct op as [d c m t| | |r m]; [|by rewrite app_nil_r..].
    unfold run_operation. rewrite entry_add_document.
    cbn [DocumentStore.add_document fst document_index].
    rewrite index_words_lookup.
    destruct (decide (word ∈ Text.words c)) as [Hin|Hin].
    + rewrite decide_True by (by apply elem_of_list_to_set).
      fold (entry (run ops) word). rewrite IHentry. split; [done|].
      by destruct (listed_under word ops).
    + rewrite decide_False by (by rewrite elem_of_list_to_set).
      by rewrite app_nil_r.
Qed.

Lemma last_added_snoc doc_id ops op :
  last_added doc_id (ops ++ [op]) =
  match op with
  | AddDocument d c m t =>
      if decide (d = doc_id) then Some c else last_added doc_id ops
  | _ => last_added doc_id ops
  end.
Proof.
  unfold last_added. rewrite omap_app.
  destruct op as [d c m t| | |r m]; simpl; [|by rewrite app_nil_r..].
  case_decide; [by rewrite last_snoc|by rewrite app_nil_r].
Qed.

Lemma documents_history ops doc_id :
  documents (run ops) !! doc_id = last_added doc_id ops.
Proof.
  induction ops as [|op ops IH] using rev_ind; [done|].
  rewrite run_snoc, last_added_snoc. destruct op as [d c m t| | |r m]; [|done..].
  cbn [run_operation DocumentStore.add_document fst documents].
  rewrite lookup_insert. by case_decide.
Qed.

(** The store has a dict object for the documents that were added, and
    for no other [doc_id]. *)
Lemma metadata_history ops doc_id :
  match last_added doc_id ops with
  | None => metadata_store (run ops) !! doc_id = None
  | Some _ =>
      ∃ r, metadata_store (run ops) !! doc_id = Some r ∧
           is_Some (objects (run ops) !! r)
  end.
Proof.
  induction ops as [|op ops IH] using rev_ind; [done|].
  rewrite run_snoc, last_added_snoc.
  destruct op as [d c m t| | |r m]; [|done..|].
  - cbn [run_operation DocumentStore.add_document fst metadata_store objects].
    rewrite lookup_insert. case_decide.
    + eexists. split; [done|]. rewrite lookup_insert_eq. by eexists.
    + destruct (last_added doc_id ops); [|done].
      destruct IH as (r & Hr & Hobject). exists r. split; [done|].
      rewrite lookup_insert. by case_decide.
  - cbn [run_operation metadata_store objects].
    destruct (last_added doc_id ops); [|done].
    destruct IH as (r' & Hr & Hobject). exists r'. split; [done|].
    rewrite lookup_insert. by case_decide.
Qed.

Lemma retrieve_document_history ops doc_id :
  match last_added doc_id ops with
  | None => DocumentStore.retrieve_document (run ops) doc_id = None
  | Some content =>
      ∃ r, DocumentStore.retrieve_document (run ops) doc_id =
             Some {| d_doc_id := doc_id; d_content := content;
                     d_metadata := Object r |} ∧
           is_Some (objects (run ops) !! r)
  end.
Proof.
  unfold DocumentStore.retrieve_document, DocumentStore.metadata_get.
  rewrite documents_history. pose proof (metadata_history ops doc_id) as Hmeta.
  destruct (last_added doc_id ops) as [content|]; [|done].
  destruct Hmeta as (r & -> & Hobject). by exists r.
Qed.

(** [metadata or {}] is the dict of the caller when that has a key, and
    otherwise a dict that was not in the heap. *)
Lemma metadata_or_new_spec (self : DocumentStore) (metadata : option ref) :
  match metadata with
  | Some r =>
      if decide (read self (Object r) = ∅)
      then objects self !! DocumentStore.metadata_or_new self metadata = None
      else DocumentStore.metadata_or_new self metadata = r
  | None => objects self !! DocumentStore.metadata_or_new self metadata = None
  end.
Proof.
  assert (objects self !! fresh (dom (objects self)) = None) as Hfresh.
  { apply not_elem_of_dom, is_fresh. }
  unfold DocumentStore.metadata_or_new, read.
  destruct metadata as [r|]; [|done].
  destruct (objects self !! r) as [d|]; cbn [default];
    [|by rewrite decide_True].
  destruct (decide (d = ∅)) as [Hd|Hd].
  - by rewrite decide_True.
  - by rewrite decide_False.
Qed.

(** X2. [retrieve_document] returns [None] for a [doc_id] that was never
    added, and otherwise the document with the content of the last call
    of [add_document] for its [doc_id] and with a dict object of the heap
    as its metadata. After a call of [add_document] this object is the
    dict that the caller passed, or a new one when it passed none or an
    empty one, and it has the clock reading of the call under
    ["added_at"]. The store keeps this dict and no copy of it: every other
    document is returned as before, and those whose metadata is the same
    dict show it as it is now, with the clock reading of this call. *)
Theorem retrieve_document_last_added (ops : list operation) (doc_id : string) :
  match last_added doc_id ops with
  | None => DocumentStore.retrieve_document (run ops) doc_id = None
  | Some content =>
      ∃ r, DocumentStore.retrieve_document (run ops) doc_id =
             Some {| d_doc_id := doc_id; d_content := content;
                     d_metadata := Object r |} ∧
           is_Some (objects (run ops) !! r)
  end ∧
  ∀ content metadata now,
    let stored := DocumentStore.metadata_or_new (run ops) metadata in
    let self := run (ops ++ [AddDocument doc_id content metadata now]) in
    let written := <["added_at" := now]> (read (run ops) (Object stored)) in
    DocumentStore.retrieve_document self doc_id =
      Some {| d_doc_id := doc_id; d_content := content;
              d_metadata := Object stored |} ∧
    match metadata with
    | Some r =>
        if decide (read (run ops) (Object r) = ∅)
        then objects (run ops) !! stored = None
        else stored = r
    | None => objects (run ops) !! stored = None
    end ∧
    read self (Object stored) = written ∧
    ∀ other document,
      other ≠ doc_id →
      DocumentStore.retrieve_document (run ops) other = Some document →
      DocumentStore.retrieve_document self other = Some document ∧
      read self (d_metadata document) =
        if decide (d_metadata document = Object stored) then written
        else read (run ops) (d_metadata document).
Proof.
  split; [apply retrieve_document_history|].
  intros content metadata now stored self written. subst self.
  rewrite run_snoc.
  unfold DocumentStore.retrieve_document, DocumentStore.metadata_get, read.
  cbn [run_operation DocumentStore.add_document fst documents metadata_store
       objects].
  fold stored. rewrite !lookup_insert_eq. split; [done|].
  split; [apply metadata_or_new_spec|]. split; [done|].
  intros other document Hother Hdoc.
  rewrite !lookup_insert_ne by done. split; [done|].
  destruct (d_metadata document) as [r|]; [|by rewrite decide_False].
  rewrite lookup_insert. destruct (decide (stored = r)) as [->|Hr].
  - by rewrite decide_True.
  - rewrite decide_False; [done|]. by intros [= ->].
Qed.

(** The dict passed as the metadata of d1 and then of d2 is the metadata
    of both documents, and shows the clock reading of the second call. *)
Example shared_metadata_shows_last_call :
  let self := run Examples.shared_metadata in
  d_metadata <$> DocumentStore.retrieve_document self "d1" = Some (Object 7%nat) ∧
  d_metadata <$> DocumentStore.retrieve_document self "d2" = Some (Object 7%nat) ∧
  read self (Object 7%nat) !! "added_at" = Some "2024-01-01T00:00:01" ∧
  read self (Object 7%nat) !! "subject" = Some "python".
Proof. by vm_compute. Qed.

(** A call without metadata, or with an empty dict, gets a dict of its
    own. *)
Example no_metadata_new_dicts :
  let self := run Examples.two_documents in
  ∃ r1 r2,
    d_metadata <$> DocumentStore.retrieve_document self "d1" = Some (Object r1) ∧
    d_metadata <$> DocumentStore.retrieve_document self "d2" = Some (Object r2) ∧
    r1 ≠ r2 ∧
    read self (Object r1) !! "added_at" = Some "2024-01-01T00:00:00" ∧
    read self (Object r2) !! "added_at" = Some "2024-01-01T00:00:01".
Proof. exists 0%nat, 1%nat. by vm_compute. Qed.

(** ** What a search returns *)

Lemma take_length n (s : string) : (String.length (Text.take n s) ≤ n)%nat.
Proof.
  revert s. induction n as [|n IH]; intros [|c s]; simpl; try lia.
  specialize (IH s). lia.
Qed.

Lemma rendered_fields (self : DocumentStore) (ranked : list (string * Z)) results :
  Forall2 (fun e r => DocumentStore.render self e = Ok r) ranked results →
  sr_doc_id <$> results = ranked.*1 ∧ sr_score <$> results = ranked.*2.
Proof.
  induction 1 as [|e r ranked results He _ [IH1 IH2]]; [done|].
  apply render_fields in He as [He1 He2]. cbn [fmap list_fmap].
  by rewrite He1, He2, IH1, IH2.
Qed.

Lemma ranked_docs_NoDup (self : DocumentStore) query top_k :
  NoDup (DocumentStore.ranked_docs self query top_k).*1.
Proof.
  unfold DocumentStore.ranked_docs.
  destruct (slice_to_prefix top_k
    (sorted_reverse Z.ltb snd (DocumentStore.doc_scores self query))) as [rest Hrest].
  assert (NoDup (sorted_reverse Z.ltb snd (DocumentStore.doc_scores self query)).*1) as Hnd.
  { rewrite sorted_reverse_perm. apply NoDup_score_words, NoDup_nil_2. }
  rewrite Hrest, fmap_app in Hnd. by apply NoDup_app in Hnd as [? _].
Qed.

Lemma listings_listed (self : DocumentStore) words d word :
  word ∈ words → d ∈ entry self word → (1 ≤ listings self words d)%nat.
Proof.
  unfold listings. intros Hword Hd.
  induction words as [|w words IH]; [by apply elem_of_nil in Hword|].
  simpl. apply elem_of_cons in Hword as [<-|Hword]; [|specialize (IH Hword); lia].
  assert (1 ≤ length (filter (fun x => x = d) (entry self word)))%nat; [|lia].
  induction (entry self word) as [|x l IHl]; [by apply elem_of_nil in Hd|].
  rewrite filter_cons. destruct (decide (x = d)); simpl; [lia|].
  apply elem_of_cons in Hd as [?|Hd]; [congruence|by apply IHl].
Qed.

(** X3. [search_documents] on a store with a history returns, for each
    document it returns, the first 200 characters at most of the content
    that the last call for its [doc_id] has stored: the document is shown
    as it is now, also when the query matched a word of a content it had
    before. The metadata of the result is the dict object that the store
    holds for the document, the one that [retrieve_document] returns, and
    no copy of it. *)
Theorem search_results_show_last_added (ops : list operation)
    (query : string) (top_k : Z) :
  ∃ results,
    DocumentStore.search_documents (run ops) query top_k = Ok results ∧
    ∀ r, r ∈ results →
      ∃ content object,
        last_added (sr_doc_id r) ops = Some content ∧
        sr_content r = Text.take 200 content ∧
        (String.length (sr_content r) ≤ 200)%nat ∧
        sr_metadata r = Object object ∧
        is_Some (objects (run ops) !! object) ∧
        DocumentStore.retrieve_document (run ops) (sr_doc_id r) =
          Some {| d_doc_id := sr_doc_id r; d_content := content;
                  d_metadata := sr_metadata r |}.
Proof.
  destruct (search_documents_ok ops query top_k) as (results & Hres & Hall).
  exists results. split; [done|]. intros r Hr.
  apply list_elem_of_lookup in Hr as [i Hi].
  destruct (Forall2_lookup_r _ _ _ _ _ Hall Hi) as ([d v] & _ & Hrender).
  unfold DocumentStore.render in Hrender.
  unfold DocumentStore.retrieve_document, DocumentStore.metadata_get in *.
  pose proof (metadata_history ops d) as Hmeta.
  rewrite documents_history in Hrender.
  destruct (last_added d ops) as [c|] eqn:Hlast;
    cbn [fmap option_fmap option_map default fst snd] in Hrender; [|done].
  destruct Hmeta as (object & Hobject & Hheap). rewrite Hobject in Hrender.
  injection Hrender as <-. cbn [sr_doc_id sr_content sr_metadata].
  exists c, object. rewrite documents_history, Hlast, Hobject.
  repeat split; try done. exact (take_length 200 c).
Qed.

(** X4. For a [top_k] that is not negative, [search_documents] returns
    [min(top_k, len(doc_scores))] documents: at most [top_k], and every
    scored document when there are no more than [top_k]. *)
Theorem search_results_count (ops : list operation) (query : string) (top_k : Z) :
  0 ≤ top_k →
  ∃ results,
    DocumentStore.search_documents (run ops) query top_k = Ok results ∧
    length results =
      (Z.to_nat top_k `min` length (DocumentStore.doc_scores (run ops) query))%nat.
Proof.
  intros Hk.
  destruct (search_documents_ok ops query top_k) as (results & Hres & Hall).
  exists results. split; [done|].
  rewrite <- (Forall2_length _ _ _ Hall).
  unfold DocumentStore.ranked_docs, slice_to.
  destruct (Z.ltb_spec top_k 0); [lia|].
  by rewrite length_take, sorted_reverse_perm.
Qed.

Lemma search_results_count_witness :
  ∃ results,
    DocumentStore.search_documents (run Examples.two_documents) "python" 1
      = Ok results ∧
    length results =
      (Z.to_nat 1 `min`
       length (DocumentStore.doc_scores (run Examples.two_documents) "python"))%nat.
Proof.
  apply (search_results_count Examples.two_documents "python" 1). lia.
Defined.

(** X5. [search_documents] returns no [doc_id] twice, and every document
    it returns has a score of 1 at least: a document that no word of the
    query lists is left out, not returned with the score 0. *)
Theorem search_results_distinct_and_positive (ops : list operation)
    (query : string) (top_k : Z) :
  ∃ results,
    DocumentStore.search_documents (run ops) query top_k = Ok results ∧
    NoDup (sr_doc_id <$> results) ∧
    ∀ r, r ∈ results → 1 ≤ sr_score r.
Proof.
  destruct (search_documents_ok ops query top_k) as (results & Hres & Hall).
  exists results. split; [done|].
  destruct (rendered_fields _ _ _ Hall) as [Hids _]. split.
  - rewrite Hids. apply ranked_docs_NoDup.
  - intros r Hr. apply list_elem_of_lookup in Hr as [i Hi].
    destruct (Forall2_lookup_r _ _ _ _ _ Hall Hi) as ([d v] & He & Hrender).
    apply render_fields in Hrender as [_ ->]. simpl.
    apply list_elem_of_lookup_2, ranked_docs_scored in He.
    rewrite (doc_scores_get _ _ _ _ He).
    apply doc_scores_listed in He as (word & Hword & Hd).
    pose proof (listings_listed _ _ _ _ Hword Hd). lia.
Qed.

Lemma listed_under_added word ops d :
  d ∈ listed_under word ops ↔
  ∃ content metadata now,
    AddDocument d content metadata now ∈ ops ∧ word ∈ Text.words content.
Proof.
  unfold listed_under. rewrite list_elem_of_omap. split.
  - intros ([d' c m t| | |] & Hop & Hd); [|done..].
    case_decide; [|done]. injection Hd as ->. by exists c, m, t.
  - intros (c & m & t & Hop & Hword). exists (AddDocument d c m t).
    split; [done|]. by rewrite decide_True.
Qed.

Lemma keys_score_words_listed (self : DocumentStore) words
    (scores : list (string * Z)) k :
  (k ∈ scores.*1 ∨ ∃ word, word ∈ words ∧ k ∈ entry self word) →
  k ∈ (fold_left (DocumentStore.score_word self) words scores).*1.
Proof.
  revert scores. induction words as [|w words IH]; intros scores; simpl.
  - intros [?|(word & Hword & _)]; [done|by apply elem_of_nil in Hword].
  - intros Hk. apply IH. rewrite score_word_entry, keys_bump_all.
    destruct Hk as [Hk|(word & Hword & Hk)]; [by left; right|].
    apply elem_of_cons in Hword as [->|Hword]; [by left; left|].
    right. by exists word.
Qed.

Lemma doc_scores_keys (self : DocumentStore) query d :
  d ∈ (DocumentStore.doc_scores self query).*1 ↔
  ∃ word, word ∈ Text.words query ∧ d ∈ entry self word.
Proof.
  unfold DocumentStore.doc_scores. split.
  - intros [Hd|Hd]%keys_score_words; [by apply elem_of_nil in Hd|done].
  - intros Hd. apply keys_score_words_listed. by right.
Qed.

Lemma doc_scores_length ops query :
  (length (DocumentStore.doc_scores (run ops) query) ≤ length (added ops))%nat.
Proof.
  rewrite <- (length_fmap fst). apply submseteq_length, NoDup_submseteq.
  - apply NoDup_score_words, NoDup_nil_2.
  - intros d (word & _ & Hd)%doc_scores_keys. by eapply entry_added.
Qed.

(** X6. The documents that [search_documents] returns were added, by some
    call, with a content that has a word of the query, and when [top_k] is
    at least the number of calls of [add_document], every such document is
    returned: a document that was added again with another content is
    still found by the words of the content it had. *)
Theorem search_finds_what_was_added (ops : list operation) (query : string)
    (top_k : Z) (doc_id : string) :
  ∃ results,
    DocumentStore.search_documents (run ops) query top_k = Ok results ∧
    (doc_id ∈ sr_doc_id <$> results → added_with_word_of query doc_id ops) ∧
    (Z.of_nat (length (added ops)) ≤ top_k →
     added_with_word_of query doc_id ops →
     doc_id ∈ sr_doc_id <$> results).
Proof.
  destruct (search_documents_ok ops query top_k) as (results & Hres & Hall).
  exists results. split; [done|].
  destruct (rendered_fields _ _ _ Hall) as [-> _].
  assert (doc_id ∈ (DocumentStore.doc_scores (run ops) query).*1 ↔
          added_with_word_of query doc_id ops) as Hkeys.
  { rewrite doc_scores_keys. unfold added_with_word_of. split.
    - intros (word & Hword & Hd).
      rewrite entry_history in Hd.
      apply listed_under_added in Hd as (c & m & t & Hop & Hc).
      by exists c, m, t, word.
    - intros (c & m & t & word & Hop & Hword & Hc). exists word.
      split; [done|]. rewrite entry_history.
      apply listed_under_added. by exists c, m, t. }
  split.
  - intros Hd. apply Hkeys.
    apply list_elem_of_fmap in Hd as ([d v] & -> & He).
    apply ranked_docs_scored in He. apply list_elem_of_fmap. by exists (d, v).
  - intros Hk Hd%Hkeys. unfold DocumentStore.ranked_docs, slice_to.
    destruct (Z.ltb_spec top_k 0); [lia|].
    rewrite firstn_all2.
    + by rewrite sorted_reverse_perm.
    + rewrite sorted_reverse_perm. pose proof (doc_scores_length ops query). lia.
Qed.

Lemma search_finds_what_was_added_witness :
  ∃ results,
    DocumentStore.search_documents (run Examples.two_documents)
      "What is Python" 5 = Ok results ∧
    "d2" ∈ sr_doc_id <$> results.
Proof.
  destruct (search_finds_what_was_added Examples.two_documents
              "What is Python" 5 "d2") as (results & Hres & _ & Hfound).
  exists results. split; [exact Hres|]. apply Hfound.
  - vm_compute. discriminate.
  - exists "Loops repeat code in Python", None, "2024-01-01T00:00:01", "python".
    split; [right; left|]. split; vm_compute; repeat constructor.
Defined.

(** ** The shape of an embedding *)

Lemma hundredths_in_range n : 0 ≤ n < 100 → hundredth_in_range n = true.
Proof.
  intros Hn.
  assert (forallb (fun k => hundredth_in_range (Z.of_nat k)) (seq 0 100) = true)
    as Hall by (by vm_compute).
  rewrite forallb_forall in Hall.
  rewrite <- (Z2Nat.id n) by lia. apply Hall, in_seq. lia.
Qed.

(** X7. An embedding has [embedding_dim] components (none when the
    dimension is negative), and each component is [n / 100.0] for an
    integer [n] from 0 to 99: a float from [0.0] up to, not including,
    [1.0]. *)
Theorem embedding_shape (self : EmbeddingGenerator) (text : string) :
  length (EmbeddingGenerator.generate_embedding self text) =
    Z.to_nat (embedding_dim self) ∧
  ∀ x, x ∈ EmbeddingGenerator.generate_embedding self text →
    ∃ n, 0 ≤ n < 100 ∧
         x = Float.div (Float.of_int n) (Float.of_int 100) ∧
         Float.leb Float.zero x = true ∧
         Float.ltb x (Float.of_int 1) = true.
Proof.
  unfold EmbeddingGenerator.generate_embedding. split.
  - by rewrite length_map, length_seq.
  - intros x (i & -> & _)%list_elem_of_fmap.
    set (n := Z.shiftr (EmbeddingGenerator.hash_int text) (Z.of_nat i) mod 100).
    assert (0 ≤ n < 100) as Hn by (apply Z.mod_pos_bound; lia).
    exists n. split; [done|]. split; [done|].
    pose proof (hundredths_in_range n Hn) as Hrange.
    unfold hundredth_in_range in Hrange.
    by apply andb_true_iff in Hrange.
Qed.

(** ** The outcomes of retrieval *)

Lemma map_result_raise {A B} (f : A → result B) (l : list A) e :
  map_result f l = Raise e → ∃ x, x ∈ l ∧ f x = Raise e.
Proof.
  induction l as [|x l IH]; simpl; [done|].
  destruct (f x) as [y|e'] eqn:Hx; simpl.
  - destruct (map_result f l) as [ys|e']; simpl; [done|].
    intros [= <-]. destruct IH as (x' & Hin & Hx'); [done|].
    exists x'. split; [by right|done].
  - intros [= <-]. exists x. split; [by left|done].
Qed.

Section RetrievalOutcomes.
Variable fsum : list float → float.
Variable pow_2 pow_half : float → option float.

Lemma similarity_score_raise self emb1 emb2 e :
  (similarity_score fsum pow_2 pow_half self emb1 emb2).2 = Raise e →
  arithmetic e.
Proof.
  unfold similarity_score, arithmetic.
  destruct (magnitude _ _ _ emb1) as [m1|e1] eqn:H1.
  - destruct (magnitude _ _ _ emb2) as [m2|e2] eqn:H2.
    + destruct (_ || _); [done|]. cbn [snd]. unfold Float.truediv.
      destruct (Float.eqb _ _); [|done]. intros [= <-]. by right.
    + intros [= <-]. left. by eapply magnitude_raise.
  - intros [= <-]. left. by eapply magnitude_raise.
Qed.

Lemma score_context_raise self query_embedding r e :
  score_context fsum pow_2 pow_half self query_embedding r = Raise e →
  arithmetic e.
Proof.
  unfold score_context.
  destruct (similarity_score _ _ _ _ _ _).2 as [x|e'] eqn:Hsim; [done|].
  intros [= <-]. by eapply similarity_score_raise.
Qed.

Lemma rank_context_outcome self query_embedding found :
  match rank_context fsum pow_2 pow_half self query_embedding found with
  | Ok context =>
      candidate_of_context <$> context ≡ₚ candidate_of_result <$> found ∧
      ∀ c, c ∈ context →
        (similarity_score fsum pow_2 pow_half (embedding_gen self) query_embedding
           (EmbeddingGenerator.generate_embedding (embedding_gen self)
              (c_content c))).2 = Ok (c_similarity c)
  | Raise e => arithmetic e
  end.
Proof.
  unfold rank_context.
  destruct (map_result _ found) as [contexts|e] eqn:Hmap; cbn [mbind result_bind].
  - apply map_result_Ok_Forall2 in Hmap. split.
    + rewrite sorted_reverse_perm.
      induction Hmap as [|r c found contexts Hrc _ IH]; [done|].
      cbn [fmap list_fmap]. rewrite IH.
      assert (candidate_of_context c = candidate_of_result r) as ->; [|done].
      unfold score_context in Hrc.
      destruct (similarity_score _ _ _ _ _ _).2; [|done].
      by injection Hrc as <-.
    + intros c Hc. rewrite sorted_reverse_perm in Hc.
      apply list_elem_of_lookup in Hc as [i Hi].
      destruct (Forall2_lookup_r _ _ _ _ _ Hmap Hi) as (r & _ & Hrc).
      unfold score_context in Hrc.
      destruct (similarity_score _ _ _ _ _ _).2 as [x|] eqn:Hsim; [|done].
      injection Hrc as <-. exact Hsim.
  - apply map_result_raise in Hmap as (r & _ & Hr).
    by eapply score_context_raise.
Qed.

End RetrievalOutcomes.

Lemma retrieve_context_outcome_aux (fsum : list float → float)
    (pow_2 pow_half : float → option float) (ops : list operation)
    (gen : EmbeddingGenerator) (query : string) (top_k : Z) :
  match retrieve_context fsum pow_2 pow_half
          {| doc_store := run ops; embedding_gen := gen |} query top_k with
  | Ok context =>
      ∃ found,
        DocumentStore.search_documents (run ops) query top_k = Ok found ∧
        candidate_of_context <$> context ≡ₚ candidate_of_result <$> found
  | Raise e => arithmetic e
  end.
Proof.
  unfold retrieve_context. cbn [doc_store embedding_gen].
  destruct (search_documents_ok ops query top_k) as (found & -> & _).
  cbn [mbind result_bind].
  pose proof (rank_context_outcome fsum pow_2 pow_half
                {| doc_store := run ops; embedding_gen := gen |}
                (EmbeddingGenerator.generate_embedding gen query) found) as Hrank.
  destruct (rank_context _ _ _ _ _ found) as [context|e]; [|done].
  exists found. split; [done|]. by destruct Hrank.
Qed.

(** X8. On a store with a history [retrieve_context] raises no
    [KeyError]: it raises an arithmetic exception of a similarity, or it
    returns the candidates of the keyword search, each with its
    [doc_id], its excerpt and its metadata, in some order; the similarity
    of each is the one of the query with the embedding of its excerpt of
    200 characters at most, not with the embedding of its document. *)
Theorem retrieve_context_outcome (fsum : list float → float)
    (pow_2 pow_half : float → option float) (ops : list operation)
    (gen : EmbeddingGenerator) (query : string) (top_k : Z) :
  match retrieve_context fsum pow_2 pow_half
          {| doc_store := run ops; embedding_gen := gen |} query top_k with
  | Ok context =>
      ∃ found,
        DocumentStore.search_documents (run ops) query top_k = Ok found ∧
        candidate_of_context <$> context ≡ₚ candidate_of_result <$> found ∧
        ∀ c, c ∈ context →
          (similarity_score fsum pow_2 pow_half gen
             (EmbeddingGenerator.generate_embedding gen query)
             (EmbeddingGenerator.generate_embedding gen (c_content c))).2
          = Ok (c_similarity c)
  | Raise e => arithmetic e
  end.
Proof.
  unfold retrieve_context. cbn [doc_store embedding_gen].
  destruct (search_documents_ok ops query top_k) as (found & -> & _).
  cbn [mbind result_bind].
  pose proof (rank_context_outcome fsum pow_2 pow_half
                {| doc_store := run ops; embedding_gen := gen |}
                (EmbeddingGenerator.generate_embedding gen query) found) as Hrank.
  destruct (rank_context _ _ _ _ _ found) as [context|e]; [|done].
  exists found. by split.
Qed.

(** ** The text of a response *)

Lemma append_cons c (s t : string) : String c s +:+ t = String c (s +:+ t).
Proof. reflexivity. Qed.

Lemma append_associative (s t u : string) : (s +:+ t) +:+ u = s +:+ (t +:+ u).
Proof.
  induction s as [|c s IH]; [done|]. rewrite !append_cons. by f_equal.
Qed.

Lemma contains_refl (s : string) : contains s s.
Proof. exists "", "". by rewrite append_empty_r. Qed.

Lemma contains_append_l (s t sub : string) : contains s sub → contains (s +:+ t) sub.
Proof.
  intros (before & after & ->). exists before, (after +:+ t).
  by rewrite !append_associative.
Qed.

Lemma contains_append_r (s t sub : string) : contains t sub → contains (s +:+ t) sub.
Proof.
  intros (before & after & ->). exists (s +:+ before), after.
  by rewrite !append_associative.
Qed.

Lemma contains_joined (parts : list string) (part : string) :
  part ∈ parts → contains (foldr String.append "" parts) part.
Proof.
  induction parts as [|p parts IH]; [by intros ?%elem_of_nil|].
  intros [->|Hin]%elem_of_cons; simpl.
  - apply contains_append_l, contains_refl.
  - by apply contains_append_r, IH.
Qed.

Lemma joined_app (parts1 parts2 : list string) :
  foldr String.append "" (parts1 ++ parts2) =
  foldr String.append "" parts1 +:+ foldr String.append "" parts2.
Proof.
  induction parts1 as [|p parts1 IH]; simpl; [done|].
  by rewrite IH, append_associative.
Qed.

Lemma build_response_shape (query : string) (c : Context) (context : list Context) :
  ∃ body,
    _build_response query (c :: context) =
    ("Based on available educational materials:" +:+ newline) +:+ body +:+
    (newline +:+ newline +:+
     "Would you like me to explain any part of this further?").
Proof.
  unfold _build_response. set (lines := imap _ (c :: context)).
  exists (foldr String.append "" lines).
  rewrite !joined_app. simpl. by rewrite !append_empty_r.
Qed.

(** X9. For a context that is not empty, the text of [_build_response]
    starts with the line ["Based on available educational materials:"]
    and ends with the closing question, and it has, for the context at
    each position [i] counted from 0, the line made of the number [i + 1],
    a dot, the first 150 characters at most of the content, and three
    dots. *)
Theorem build_response_numbers_excerpts (query : string) (context : list Context) :
  context ≠ [] →
  (∃ body,
     _build_response query context =
     ("Based on available educational materials:" +:+ newline) +:+ body +:+
     (newline +:+ newline +:+
      "Would you like me to explain any part of this further?")) ∧
  ∀ i c, context !! i = Some c →
    contains (_build_response query context)
      (newline +:+ pretty (S i) +:+ ". " +:+
       Text.take 150 (c_content c) +:+ "...") ∧
    (String.length (Text.take 150 (c_content c)) ≤ 150)%nat.
Proof.
  intros Hcontext. destruct context as [|c0 context]; [done|].
  unfold _build_response.
  set (lines := imap _ (c0 :: context)). split.
  - exists (foldr String.append "" lines).
    rewrite !joined_app. simpl. by rewrite !append_empty_r.
  - intros i c Hi. split; [|apply take_length].
    apply contains_joined. apply elem_of_app. right.
    apply elem_of_app. left. apply list_elem_of_lookup. exists i.
    unfold lines. rewrite list_lookup_imap, Hi. done.
Qed.

Lemma build_response_numbers_excerpts_witness :
  let c := {| c_doc_id := "d2"; c_content := "Loops repeat code in Python";
              c_similarity := Float.zero; c_metadata := NewDict |} in
  contains (_build_response "loops" [c])
    (newline +:+ pretty 1%nat +:+ ". " +:+
     Text.take 150 (c_content c) +:+ "...") ∧
  (String.length (Text.take 150 (c_content c)) ≤ 150)%nat.
Proof.
  intros c.
  apply (proj2 (build_response_numbers_excerpts "loops" [c] ltac:(discriminate))
           0%nat c).
  reflexivity.
Defined.

Lemma build_response_fallback (query : string) (context : list Context) :
  _build_response query context =
    "I couldn't find relevant information about: " +:+ query ↔
  context = [].
Proof.
  split; [|by intros ->].
  destruct context as [|c context]; [done|]. intros Hresp.
  destruct (build_response_shape query c context) as (body & Hbody).
  rewrite Hbody in Hresp. rewrite !append_cons in Hresp. by injection Hresp.
Qed.

(** ** The outcomes of a response *)

Lemma ranked_docs_length (self : DocumentStore) query top_k :
  0 ≤ top_k →
  (length (DocumentStore.ranked_docs self query top_k) ≤ Z.to_nat top_k)%nat.
Proof.
  intros Hk. unfold DocumentStore.ranked_docs, slice_to.
  destruct (Z.ltb_spec top_k 0); [lia|]. rewrite length_take. lia.
Qed.

Lemma search_documents_found (self : DocumentStore) query top_k found :
  DocumentStore.search_documents self query top_k = Ok found →
  sr_doc_id <$> found = (DocumentStore.ranked_docs self query top_k).*1 ∧
  length found = length (DocumentStore.ranked_docs self query top_k).
Proof.
  unfold DocumentStore.search_documents. intros Hfound.
  pose proof (map_result_Ok_Forall2 _ _ _ Hfound) as Hall.
  split; [by apply rendered_fields in Hall as [? _]|].
  symmetry. by eapply Forall2_length.
Qed.

(** X10. On a store with a history [generate_response] raises no
    [KeyError]: it raises an arithmetic exception of a similarity, or it
    returns a response that repeats the query, the [student_id] and the
    clock reading, whose [context_used] is the number of its sources and
    is 3 at most, whose sources have distinct [doc_id]s, and whose text is
    the text for no information exactly when [context_used] is 0. *)
Theorem generate_response_outcome (fsum : list float → float)
    (pow_2 pow_half : float → option float) (ops : list operation)
    (gen : EmbeddingGenerator) (query : string) (student_id : option string)
    (now : string) :
  match generate_response fsum pow_2 pow_half
          {| context_retriever := {| doc_store := run ops; embedding_gen := gen |} |}
          query student_id now with
  | Ok response =>
      r_query response = query ∧
      r_student_id response = student_id ∧
      r_generated_at response = now ∧
      r_context_used response = Z.of_nat (length (r_sources response)) ∧
      r_context_used response ≤ 3 ∧
      NoDup (s_doc_id <$> r_sources response) ∧
      (r_context_used response = 0 ↔
       r_response response =
         "I couldn't find relevant information about: " +:+ query)
  | Raise e => arithmetic e
  end.
Proof.
  unfold generate_response. cbn [context_retriever].
  pose proof (retrieve_context_outcome_aux fsum pow_2 pow_half ops gen query 3)
    as Hctx.
  destruct (retrieve_context _ _ _ _ query 3) as [context|e];
    cbn [mbind result_bind]; [|done].
  destruct Hctx as (found & Hfound & Hperm).
  apply search_documents_found in Hfound as [Hids Hlen].
  cbn [r_query r_student_id r_generated_at r_context_used r_sources r_response].
  assert (c_doc_id <$> context ≡ₚ sr_doc_id <$> found) as Hperm_ids.
  { change c_doc_id with ((fun x => x.1.1) ∘ candidate_of_context).
    change sr_doc_id with ((fun x => x.1.1) ∘ candidate_of_result).
    rewrite !list_fmap_compose. by rewrite Hperm. }
  repeat split; try done.
  - by rewrite length_map.
  - rewrite <- (length_fmap c_doc_id), Hperm_ids, length_fmap, Hlen.
    pose proof (ranked_docs_length (run ops) query 3). lia.
  - rewrite <- list_fmap_compose.
    change (s_doc_id ∘ _) with c_doc_id.
    rewrite Hperm_ids, Hids. apply ranked_docs_NoDup.
  - intros Hzero. destruct context; [done|]. simpl in Hzero. lia.
  - intros Hresp%build_response_fallback. by subst.
Qed.

(** ** The conversation history *)

Section History.
Variable fsum : list float → float.
Variable pow_2 pow_half : float → option float.
Implicit Types (self : RAGSystem).

Lemma record_entry_lookup student_id item history s :
  default [] (RAGSystem.record_entry student_id item history !! s) =
  default [] (history !! s) ++ (if decide (student_id = s) then [item] else []).
Proof.
  unfold RAGSystem.record_entry. rewrite lookup_insert.
  case_decide; [by subst|by rewrite app_nil_r].
Qed.

(** The history of [s] after a call of [answer_student_query]. *)
Lemma answer_history self query student_id generated_at timestamp s :
  RAGSystem.get_conversation_history
    (state_after self
       (RAGSystem.answer_student_query fsum pow_2 pow_half self query student_id
          generated_at timestamp)) s =
  RAGSystem.get_conversation_history self s ++
  match generate_response fsum pow_2 pow_half (RAGSystem.sys_response_generator self)
          query student_id generated_at with
  | Ok response =>
      if decide (truthy student_id = true ∧ student_id = Some s)
      then [{| e_query := query; e_response := response; e_timestamp := timestamp |}]
      else []
  | Raise _ => []
  end.
Proof.
  unfold RAGSystem.answer_student_query, RAGSystem.get_conversation_history.
  destruct (generate_response _ _ _ _ query student_id generated_at)
    as [response|e]; cbn [mbind result_bind state_after];
    [|by rewrite app_nil_r].
  cbn [conversation_history].
  destruct student_id as [id|];
    [|rewrite decide_False; [by rewrite app_nil_r|by intros [? _]]].
  destruct (truthy (Some id)) eqn:Htruthy.
  - rewrite record_entry_lookup.
    destruct (decide (id = s)) as [->|Hne].
    + by rewrite decide_True.
    + rewrite decide_False; [done|]. intros [_ [= ?]]. done.
  - rewrite decide_False; [by rewrite app_nil_r|]. intros [? _]. congruence.
Qed.

End History.

(** X11. A call of [answer_student_query] for one student leaves the
    history of every other student as it was, whether the call returns or
    raises. *)
Theorem history_isolation (fsum : list float → float)
    (pow_2 pow_half : float → option float) (self : RAGSystem)
    (query : string) (student_id : option string)
    (generated_at timestamp : string) (other : string) :
  student_id ≠ Some other →
  RAGSystem.get_conversation_history
    (state_after self
       (RAGSystem.answer_student_query fsum pow_2 pow_half self query student_id
          generated_at timestamp)) other =
  RAGSystem.get_conversation_history self other.
Proof.
  intros Hother. rewrite answer_history.
  destruct (generate_response _ _ _ _ _ _ _); [|by rewrite app_nil_r].
  rewrite decide_False; [by rewrite app_nil_r|by intros [_ ?]].
Qed.

Lemma history_isolation_witness :
  RAGSystem.get_conversation_history
    (state_after RAGSystem.new
       (RAGSystem.answer_student_query Reference.fsum Reference.pow_2
          Reference.pow_half RAGSystem.new "quantum" (Some "B")
          "2024-01-01T00:00:02" "2024-01-01T00:00:03")) "A" =
  RAGSystem.get_conversation_history RAGSystem.new "A".
Proof.
  apply (history_isolation Reference.fsum Reference.pow_2 Reference.pow_half
           RAGSystem.new "quantum" (Some "B") "2024-01-01T00:00:02"
           "2024-01-01T00:00:03" "A").
  discriminate.
Defined.

(** X12. The history only grows at its end: after a call of
    [answer_student_query], the history that any student had is a prefix
    of the history the student has, with one entry more at most. *)
Theorem history_append_only (fsum : list float → float)
    (pow_2 pow_half : float → option float) (self : RAGSystem)
    (query : string) (student_id : option string)
    (generated_at timestamp : string) (s : string) :
  let after :=
    state_after self
      (RAGSystem.answer_student_query fsum pow_2 pow_half self query student_id
         generated_at timestamp) in
  RAGSystem.get_conversation_history self s `prefix_of`
    RAGSystem.get_conversation_history after s ∧
  (length (RAGSystem.get_conversation_history after s) ≤
   S (length (RAGSystem.get_conversation_history self s)))%nat.
Proof.
  intros after. unfold after. rewrite answer_history. split.
  - by eexists.
  - rewrite length_app.
    destruct (generate_response _ _ _ _ _ _ _); [case_decide|]; simpl; lia.
Qed.

(** X13. When the response to a student whose [student_id] is not empty
    is generated, [answer_student_query] puts one entry at the end of the
    history of that student: the query, the response it returns and the
    clock reading. *)
Theorem answer_is_recorded (fsum : list float → float)
    (pow_2 pow_half : float → option float) (self : RAGSystem)
    (query s generated_at timestamp : string) (response : Response) :
  s ≠ "" →
  generate_response fsum pow_2 pow_half (RAGSystem.sys_response_generator self)
    query (Some s) generated_at = Ok response →
  ∃ self',
    RAGSystem.answer_student_query fsum pow_2 pow_half self query (Some s)
      generated_at timestamp = Ok (self', response) ∧
    RAGSystem.get_conversation_history self' s =
    RAGSystem.get_conversation_history self s ++
    [{| e_query := query; e_response := response; e_timestamp := timestamp |}].
Proof.
  intros Hs Hresponse.
  pose proof (answer_history fsum pow_2 pow_half self query (Some s)
                generated_at timestamp s) as Hhistory.
  unfold RAGSystem.answer_student_query in *. rewrite Hresponse in *.
  cbn [mbind result_bind state_after] in *.
  eexists. split; [done|]. rewrite Hhistory.
  rewrite decide_True; [done|]. split; [|done]. by destruct s.
Qed.

Lemma answer_is_recorded_witness :
  let response :=
    {| r_query := "quantum";
       r_response := "I couldn't find relevant information about: quantum";
       r_context_used := 0;
       r_sources := [];
       r_student_id := Some "STU001";
       r_generated_at := "2024-01-01T00:00:02" |} in
  ∃ self',
    RAGSystem.answer_student_query Reference.fsum Reference.pow_2
      Reference.pow_half RAGSystem.new "quantum" (Some "STU001")
      "2024-01-01T00:00:02" "2024-01-01T00:00:03" = Ok (self', response) ∧
    RAGSystem.get_conversation_history self' "STU001" =
    RAGSystem.get_conversation_history RAGSystem.new "STU001" ++
    [{| e_query := "quantum"; e_response := response;
        e_timestamp := "2024-01-01T00:00:03" |}].
Proof.
  intros response.
  apply (answer_is_recorded Reference.fsum Reference.pow_2 Reference.pow_half
           RAGSystem.new "quantum" "STU001" "2024-01-01T00:00:02"
           "2024-01-01T00:00:03" response).
  - discriminate.
  - by vm_compute.
Defined.

(** X14. A call of [answer_student_query] without a [student_id], or with
    the empty string as [student_id], records nothing: it leaves the whole
    system as it was. *)
Theorem anonymous_answer_not_recorded (fsum : list float → float)
    (pow_2 pow_half : float → option float) (self : RAGSystem)
    (query : string) (student_id : option string)
    (generated_at timestamp : string) :
  student_id = None ∨ student_id = Some "" →
  state_after self
    (RAGSystem.answer_student_query fsum pow_2 pow_half self query student_id
       generated_at timestamp) = self.
Proof.
  intros Hanonymous. unfold RAGSystem.answer_student_query.
  destruct (generate_response _ _ _ _ _ _ _); cbn [mbind result_bind state_after];
    [|done].
  destruct self. by destruct Hanonymous as [-> | ->].
Qed.

Lemma anonymous_answer_not_recorded_witness :
  state_after RAGSystem.new
    (RAGSystem.answer_student_query Reference.fsum Reference.pow_2
       Reference.pow_half RAGSystem.new "quantum" (Some "")
       "2024-01-01T00:00:02" "2024-01-01T00:00:03") = RAGSystem.new.
Proof.
  apply (anonymous_answer_not_recorded Reference.fsum Reference.pow_2
           Reference.pow_half RAGSystem.new "quantum" (Some "")
           "2024-01-01T00:00:02" "2024-01-01T00:00:03").
  by right.
Defined.

(** ** The system and its answers *)

(** X15. [answer_student_query] reads the store and the generator and
    writes neither: after a call, whether it returned or raised, the store
    and the generator are the same, so every later question gets the
    response it would have got before. *)
Theorem answering_changes_no_answer (fsum : list float → float)
    (pow_2 pow_half : float → option float) (self : RAGSystem)
    (query : string) (student_id : option string)
    (generated_at timestamp : string) :
  let after :=
    state_after self
      (RAGSystem.answer_student_query fsum pow_2 pow_half self query student_id
         generated_at timestamp) in
  sys_doc_store after = sys_doc_store self ∧
  sys_embedding_gen after = sys_embedding_gen self ∧
  ∀ query' student_id' now',
    generate_response fsum pow_2 pow_half (RAGSystem.sys_response_generator after)
      query' student_id' now' =
    generate_response fsum pow_2 pow_half (RAGSystem.sys_response_generator self)
      query' student_id' now'.
Proof.
  intros after.
  assert (sys_doc_store after = sys_doc_store self ∧
          sys_embedding_gen after = sys_embedding_gen self) as [Hstore Hgen].
  { unfold after, RAGSystem.answer_student_query.
    by destruct (generate_response _ _ _ _ _ _ _). }
  repeat split; [done..|]. intros query' student_id' now'.
  unfold RAGSystem.sys_response_generator, RAGSystem.sys_context_retriever.
  by rewrite Hstore, Hgen.
Qed.

(** X16. The embeddings stored in the generator are never read when
    context is retrieved: with the same store, two generators of the same
    dimension give the same outcome, whatever embeddings each has
    stored. *)
Theorem retrieval_ignores_stored_embeddings (fsum : list float → float)
    (pow_2 pow_half : float → option float) (store : DocumentStore)
    (gen1 gen2 : EmbeddingGenerator) (query : string) (top_k : Z) :
  embedding_dim gen1 = embedding_dim gen2 →
  retrieve_context fsum pow_2 pow_half
    {| doc_store := store; embedding_gen := gen1 |} query top_k =
  retrieve_context fsum pow_2 pow_half
    {| doc_store := store; embedding_gen := gen2 |} query top_k.
Proof.
  destruct gen1 as [dim1 stored1], gen2 as [dim2 stored2].
  cbn [embedding_dim]. intros ->. reflexivity.
Qed.

Lemma retrieval_ignores_stored_embeddings_witness :
  retrieve_context Reference.fsum Reference.pow_2 Reference.pow_half
    {| doc_store := run Examples.two_documents;
       embedding_gen :=
         EmbeddingGenerator.store_embedding (EmbeddingGenerator.new 384) "d1"
           [Float.zero] |} "What is Python" 3 =
  retrieve_context Reference.fsum Reference.pow_2 Reference.pow_half
    {| doc_store := run Examples.two_documents;
       embedding_gen := EmbeddingGenerator.new 384 |} "What is Python" 3.
Proof.
  apply (retrieval_ignores_stored_embeddings Reference.fsum Reference.pow_2
           Reference.pow_half (run Examples.two_documents)
           (EmbeddingGenerator.store_embedding (EmbeddingGenerator.new 384) "d1"
              [Float.zero])
           (EmbeddingGenerator.new 384) "What is Python" 3).
  reflexivity.
Defined.

Section SystemFacts.
Variable fsum : list float → float.
Variable pow_2 pow_half : float → option float.

Lemma rag_run_snoc ops op :
  rag_run fsum pow_2 pow_half (ops ++ [op]) =
  rag_run_operation fsum pow_2 pow_half (rag_run fsum pow_2 pow_half ops) op.
Proof. unfold rag_run. by rewrite fold_left_app. Qed.

Lemma answer_keeps_store self query student_id generated_at timestamp :
  sys_doc_store
    (state_after self
       (RAGSystem.answer_student_query fsum pow_2 pow_half self query student_id
          generated_at timestamp)) = sys_doc_store self ∧
  sys_embedding_gen
    (state_after self
       (RAGSystem.answer_student_query fsum pow_2 pow_half self query student_id
          generated_at timestamp)) = sys_embedding_gen self.
Proof.
  unfold RAGSystem.answer_student_query.
  by destruct (generate_response _ _ _ _ _ _ _).
Qed.

Lemma sys_doc_store_run ops :
  sys_doc_store (rag_run fsum pow_2 pow_half ops) = run (store_operations ops).
Proof.
  induction ops as [|op ops IH] using rev_ind; [done|].
  rewrite rag_run_snoc. unfold store_operations in *. rewrite omap_app.
  destruct op as [d c m t|q sid g t|sid|r m]; cbn [rag_run_operation omap list_omap].
  - rewrite run_snoc. cbn [RAGSystem.add_educational_resource fst
      DocumentStore.add_document sys_doc_store run_operation].
    by rewrite IH.
  - rewrite app_nil_r. by rewrite (proj1 (answer_keeps_store _ _ _ _ _)).
  - by rewrite app_nil_r.
  - rewrite run_snoc. cbn [sys_doc_store]. by rewrite IH.
Qed.

Lemma sys_embedding_dim_run ops :
  embedding_dim (sys_embedding_gen (rag_run fsum pow_2 pow_half ops)) = 384.
Proof.
  induction ops as [|op ops IH] using rev_ind; [done|].
  rewrite rag_run_snoc.
  destruct op as [d c m t|q sid g t|sid|r m]; cbn [rag_run_operation]; [done| |done..].
  by rewrite (proj2 (answer_keeps_store _ _ _ _ _)).
Qed.

Lemma sys_embeddings_run ops d :
  embeddings (sys_embedding_gen (rag_run fsum pow_2 pow_half ops)) !! d =
  EmbeddingGenerator.generate_embedding (EmbeddingGenerator.new 384) <$>
    documents (sys_doc_store (rag_run fsum pow_2 pow_half ops)) !! d.
Proof.
  induction ops as [|op ops IH] using rev_ind; [done|].
  rewrite rag_run_snoc.
  destruct op as [d' c m t|q sid g t|sid|r m]; cbn [rag_run_operation]; [| |done..].
  - cbn [RAGSystem.add_educational_resource fst DocumentStore.add_document
      sys_doc_store sys_embedding_gen EmbeddingGenerator.store_embedding
      embeddings documents].
    rewrite !lookup_insert. case_decide; [|done].
    cbn [fmap option_fmap option_map]. f_equal.
    unfold EmbeddingGenerator.generate_embedding.
    by rewrite sys_embedding_dim_run.
  - by rewrite (proj1 (answer_keeps_store _ _ _ _ _)),
               (proj2 (answer_keeps_store _ _ _ _ _)).
Qed.

Lemma history_run_snoc ops op s :
  RAGSystem.get_conversation_history
    (rag_run fsum pow_2 pow_half (ops ++ [op])) s =
  RAGSystem.get_conversation_history (rag_run fsum pow_2 pow_half ops) s ++
  match op with
  | AnswerStudentQuery query student_id generated_at timestamp =>
      match generate_response fsum pow_2 pow_half
              (RAGSystem.sys_response_generator (rag_run fsum pow_2 pow_half ops))
              query student_id generated_at with
      | Ok response =>
          if decide (truthy student_id = true ∧ student_id = Some s)
          then [{| e_query := query; e_response := response;
                   e_timestamp := timestamp |}]
          else []
      | Raise _ => []
      end
  | _ => []
  end.
Proof.
  rewrite rag_run_snoc.
  destruct op as [d c m t|q sid g t|sid|r m]; cbn [rag_run_operation].
  - by rewrite app_nil_r.
  - apply answer_history.
  - by rewrite app_nil_r.
  - by rewrite app_nil_r.
Qed.

End SystemFacts.

(** X17. In a system reached by calls of its methods, the store is the
    one that the calls of [add_educational_resource] have built with
    [add_document], the dimension is 384, and the embedding stored for a
    [doc_id] is the embedding of the content the store now has for it:
    exactly the stored documents have one, also after a resource is added
    again. *)
Theorem system_caches_current_embeddings (fsum : list float → float)
    (pow_2 pow_half : float → option float) (ops : list rag_operation) :
  let self := rag_run fsum pow_2 pow_half ops in
  sys_doc_store self = run (store_operations ops) ∧
  embedding_dim (sys_embedding_gen self) = 384 ∧
  ∀ doc_id,
    embeddings (sys_embedding_gen self) !! doc_id =
    EmbeddingGenerator.generate_embedding (sys_embedding_gen self) <$>
      documents (sys_doc_store self) !! doc_id.
Proof.
  intros self. split; [apply sys_doc_store_run|].
  split; [apply sys_embedding_dim_run|]. intros doc_id.
  unfold self. rewrite sys_embeddings_run.
  unfold EmbeddingGenerator.generate_embedding.
  by rewrite sys_embedding_dim_run.
Qed.

(** X18. On a system reached by calls of its methods
    [answer_student_query] raises no [KeyError]: it raises an arithmetic
    exception of a similarity, or returns the response that
    [generate_response] generates on the store and the generator of the
    system. *)
Theorem answer_student_query_outcome (fsum : list float → float)
    (pow_2 pow_half : float → option float) (ops : list rag_operation)
    (query : string) (student_id : option string)
    (generated_at timestamp : string) :
  let self := rag_run fsum pow_2 pow_half ops in
  match RAGSystem.answer_student_query fsum pow_2 pow_half self query student_id
          generated_at timestamp with
  | Ok (_, response) =>
      generate_response fsum pow_2 pow_half
        {| context_retriever :=
             {| doc_store := run (store_operations ops);
                embedding_gen := sys_embedding_gen self |} |}
        query student_id generated_at = Ok response
  | Raise e => arithmetic e
  end.
Proof.
  intros self. unfold RAGSystem.answer_student_query,
    RAGSystem.sys_response_generator, RAGSystem.sys_context_retriever.
  unfold self. rewrite sys_doc_store_run. fold self.
  destruct (generate_response _ _ _ _ query student_id generated_at)
    as [response|e] eqn:Hresponse; cbn [mbind result_bind]; [done|].
  unfold generate_response in Hresponse. cbn [context_retriever] in Hresponse.
  pose proof (retrieve_context_outcome_aux fsum pow_2 pow_half
                (store_operations ops) (sys_embedding_gen self) query 3) as Hctx.
  destruct (retrieve_context _ _ _ _ query 3); [done|].
  by injection Hresponse as <-.
Qed.

(** X19. [get_conversation_history] returns the empty list for a student
    under whose [student_id] no question was asked, and for the empty
    [student_id] in any case: it raises nothing for a student the system
    does not know. *)
Theorem unknown_student_has_no_history (fsum : list float → float)
    (pow_2 pow_half : float → option float) (ops : list rag_operation)
    (student_id : string) :
  student_id = "" ∨ never_asked student_id ops →
  RAGSystem.get_conversation_history (rag_run fsum pow_2 pow_half ops) student_id
    = [].
Proof.
  intros Hunknown.
  induction ops as [|op ops IH] using rev_ind; [done|].
  rewrite history_run_snoc, IH.
  - destruct op as [d c m t|q sid g t|sid|r m]; [done| |done..].
    destruct (generate_response _ _ _ _ _ _ _); [|done].
    rewrite decide_False; [done|]. intros [Htruthy ->].
    destruct Hunknown as [->|Hnever]; [done|].
    apply (Hnever q g t). apply elem_of_app. right. by left.
  - destruct Hunknown as [?|Hnever]; [by left|right].
    intros q g t Hin. apply (Hnever q g t). apply elem_of_app. by left.
Qed.

Lemma unknown_student_has_no_history_witness :
  RAGSystem.get_conversation_history
    (rag_run Reference.fsum Reference.pow_2 Reference.pow_half
       [AddEducationalResource "d1" "Python is a programming language" None
          "2024-01-01T00:00:00";
        AnswerStudentQuery "What is Python" (Some "B") "2024-01-01T00:00:02"
          "2024-01-01T00:00:03"]) "A" = [].
Proof.
  apply (unknown_student_has_no_history Reference.fsum Reference.pow_2
           Reference.pow_half
           [AddEducationalResource "d1" "Python is a programming language" None
              "2024-01-01T00:00:00";
            AnswerStudentQuery "What is Python" (Some "B") "2024-01-01T00:00:02"
              "2024-01-01T00:00:03"] "A").
  right. intros query generated_at timestamp Hin.
  apply elem_of_cons in Hin as [Hin|Hin]; [discriminate|].
  apply list_elem_of_singleton in Hin. discriminate.
Defined.

(** ** Scores and ties *)

Lemma listings_history ops words d :
  listings (run ops) words d =
  sum_list (map (fun word => length (filter (fun x => x = d) (listed_under word ops)))
                words).
Proof.
  unfold listings. f_equal. apply map_ext. intros word. by rewrite entry_history.
Qed.

(** X20. The score of a document that [search_documents] returns is the
    number of pairs of an occurrence of a word in the query and a call of
    [add_document] that added the document with a content that has the
    word: a word repeated in the query counts again, and so does a
    document added again. *)
Theorem search_score_counts_calls (ops : list operation) (query : string)
    (top_k : Z) :
  ∃ results,
    DocumentStore.search_documents (run ops) query top_k = Ok results ∧
    ∀ r, r ∈ results →
      sr_score r =
      Z.of_nat
        (sum_list
           (map (fun word =>
                   length (filter (fun d => d = sr_doc_id r) (listed_under word ops)))
                (Text.words query))).
Proof.
  destruct (search_documents_ok ops query top_k) as (results & Hres & Hall).
  exists results. split; [done|]. intros r Hr.
  apply list_elem_of_lookup in Hr as [i Hi].
  destruct (Forall2_lookup_r _ _ _ _ _ Hall Hi) as ([d v] & He & Hrender).
  apply render_fields in Hrender as [-> ->]. cbn [fst snd].
  apply list_elem_of_lookup_2, ranked_docs_scored, doc_scores_get in He.
  by rewrite He, listings_history.
Qed.

Lemma insert_reverse_ties (x : string * Z) (l : list (string * Z)) (v : Z) :
  filter (fun e => e.2 = v) (insert_reverse Z.ltb snd x l) =
  filter (fun e => e.2 = v) (x :: l).
Proof.
  induction l as [|y l IH]; [done|]. cbn [insert_reverse].
  destruct (Z.ltb_spec x.2 y.2) as [Hlt|Hge]; [|done].
  rewrite filter_cons, IH, !filter_cons.
  destruct (decide (y.2 = v)), (decide (x.2 = v)); try done. lia.
Qed.

Lemma sorted_reverse_ties (l : list (string * Z)) (v : Z) :
  filter (fun e => e.2 = v) (sorted_reverse Z.ltb snd l) =
  filter (fun e => e.2 = v) l.
Proof.
  induction l as [|x l IH]; [done|]. cbn [sorted_reverse foldr].
  fold (sorted_reverse Z.ltb snd l).
  by rewrite insert_reverse_ties, !filter_cons, IH.
Qed.

Lemma rendered_ties (self : DocumentStore) (ranked : list (string * Z)) results v :
  Forall2 (fun e r => DocumentStore.render self e = Ok r) ranked results →
  sr_doc_id <$> filter (fun r => sr_score r = v) results =
  (filter (fun e => e.2 = v) ranked).*1.
Proof.
  induction 1 as [|e r ranked results He _ IH]; [done|].
  apply render_fields in He as [Hid Hscore]. rewrite !filter_cons, Hscore.
  destruct (decide (e.2 = v)); [|done]. cbn [fmap list_fmap]. by rewrite Hid, IH.
Qed.

(** X21. Among the documents that [search_documents] returns with one
    score, the order is the one in which the scoring loop met them first:
    they are the first of the documents that [doc_scores] holds with that
    score, in the order of [doc_scores]. *)
Theorem search_ties_keep_first_encounter (ops : list operation)
    (query : string) (top_k : Z) (score : Z) :
  ∃ results,
    DocumentStore.search_documents (run ops) query top_k = Ok results ∧
    sr_doc_id <$> filter (fun r => sr_score r = score) results `prefix_of`
    (filter (fun e => e.2 = score) (DocumentStore.doc_scores (run ops) query)).*1.
Proof.
  destruct (search_documents_ok ops query top_k) as (results & Hres & Hall).
  exists results. split; [done|].
  rewrite (rendered_ties _ _ _ score Hall).
  unfold DocumentStore.ranked_docs.
  destruct (slice_to_prefix top_k
    (sorted_reverse Z.ltb snd (DocumentStore.doc_scores (run ops) query)))
    as [rest Hrest].
  rewrite <- (sorted_reverse_ties (DocumentStore.doc_scores (run ops) query)).
  rewrite Hrest at 2. rewrite filter_app, fmap_app. by eexists.
Qed.

(** ** Words *)

Lemma lower_char_idempotent c :
  Text.lower_char (Text.lower_char c) = Text.lower_char c.
Proof. by destruct c as [[] [] [] [] [] [] [] []]. Qed.

Lemma lower_idempotent s : Text.lower (Text.lower s) = Text.lower s.
Proof.
  induction s as [|c s IH]; [done|]. cbn [Text.lower].
  by rewrite lower_char_idempotent, IH.
Qed.

Lemma words_lower text : Text.words (Text.lower text) = Text.words text.
Proof. unfold Text.words. by rewrite lower_idempotent. Qed.

(** X22. Letter case makes no difference to the index or to a search: a
    content and its lower-case form put a [doc_id] under the same words,
    and a query and its lower-case form return the same documents. *)
Theorem search_ignores_case (self : DocumentStore) (doc_id content : string)
    (metadata : option ref) (now query : string) (top_k : Z) :
  document_index
    (DocumentStore.add_document self doc_id (Text.lower content) metadata now).1 =
  document_index (DocumentStore.add_document self doc_id content metadata now).1 ∧
  DocumentStore.search_documents self (Text.lower query) top_k =
  DocumentStore.search_documents self query top_k.
Proof.
  split.
  - cbn [DocumentStore.add_document fst document_index]. by rewrite words_lower.
  - unfold DocumentStore.search_documents, DocumentStore.ranked_docs,
      DocumentStore.doc_scores. by rewrite words_lower.
Qed.

Lemma forall_chars_append test (s t : string) :
  forall_chars test (s +:+ t) = forall_chars test s && forall_chars test t.
Proof.
  induction s as [|c s IH]; [done|]. rewrite append_cons.
  cbn [forall_chars]. by rewrite IH, andb_assoc.
Qed.

Lemma split_from_word_chars word s w :
  forall_chars (fun c => Ascii.eqb (Text.lower_char c) c) s = true →
  forall_chars word_char word = true →
  w ∈ Text.split_from word s →
  w ≠ "" ∧ forall_chars word_char w = true.
Proof.
  revert word. induction s as [|c s IH]; intros word Hs Hword; cbn [Text.split_from].
  - case_decide; [by intros ?%elem_of_nil|].
    by intros ->%list_elem_of_singleton.
  - cbn [forall_chars] in Hs. apply andb_true_iff in Hs as [Hc Hs].
    destruct (Text.isspace c) eqn:Hspace.
    + case_decide; [by apply IH|].
      intros [->|Hw]%elem_of_cons; [done|]. by apply (IH "").
    + apply IH; [done|]. rewrite forall_chars_append, Hword.
      cbn [forall_chars]. unfold word_char. by rewrite Hc, Hspace.
Qed.

Lemma lower_chars s :
  forall_chars (fun c => Ascii.eqb (Text.lower_char c) c) (Text.lower s) = true.
Proof.
  induction s as [|c s IH]; [done|]. cbn [Text.lower forall_chars].
  rewrite lower_char_idempotent, IH. by rewrite Ascii.eqb_refl.
Qed.

Lemma words_word_chars text w :
  w ∈ Text.words text → w ≠ "" ∧ forall_chars word_char w = true.
Proof.
  unfold Text.words, Text.split.
  apply split_from_word_chars; [apply lower_chars|done].
Qed.

(** X23. Every key of the inverted index of a store with a history is a
    word: it is not empty, it has no white space, and it is in lower
    case, each of its characters being one that [str.lower] leaves as it
    is. *)
Theorem index_keys_are_words (ops : list operation) (word : string) :
  is_Some (document_index (run ops) !! word) →
  word ≠ "" ∧ forall_chars word_char word = true ∧ Text.lower word = word.
Proof.
  intros Hkey.
  assert (∃ content, word ∈ Text.words content) as [content Hword].
  { clear -Hkey. induction ops as [|op ops IH] using rev_ind.
    - change (is_Some ((∅ : gmap string (list string)) !! word)) in Hkey.
      rewrite lookup_empty in Hkey. by destruct Hkey.
    - rewrite run_snoc in Hkey. destruct op as [d c m t| | |r m]; [|by apply IH..].
      cbn [run_operation DocumentStore.add_document fst document_index] in Hkey.
      rewrite index_words_lookup in Hkey.
      destruct (decide (word ∈ (list_to_set (Text.words c) : gset string)))
        as [Hin|Hin]; [|by apply IH].
      exists c. by apply elem_of_list_to_set in Hin. }
  apply words_word_chars in Hword as [Hne Hchars]. repeat split; [done..|].
  clear -Hchars. induction word as [|c word IH]; [done|].
  cbn [forall_chars] in Hchars. apply andb_true_iff in Hchars as [Hc Hchars].
  unfold word_char in Hc. apply andb_true_iff in Hc as [Hc%Ascii.eqb_eq _].
  cbn [Text.lower]. by rewrite Hc, IH.
Qed.

Lemma index_keys_are_words_witness :
  "python" ≠ "" ∧ forall_chars word_char "python" = true ∧
  Text.lower "python" = "python".
Proof.
  apply (index_keys_are_words Examples.two_documents "python").
  vm_compute. by eexists.
Defined.

(** ** A matching query is answered from context *)

(** X24. When some call has added a document with a content that has a
    word of the query, [generate_response] does not give the text for no
    information: it raises an arithmetic exception of a similarity, or it
    returns a response with one source at least. *)
Theorem matching_query_uses_context (fsum : list float → float)
    (pow_2 pow_half : float → option float) (ops : list operation)
    (gen : EmbeddingGenerator) (query doc_id : string)
    (student_id : option string) (now : string) :
  added_with_word_of query doc_id ops →
  match generate_response fsum pow_2 pow_half
          {| context_retriever := {| doc_store := run ops; embedding_gen := gen |} |}
          query student_id now with
  | Ok response =>
      1 ≤ r_context_used response ∧
      r_response response ≠
        "I couldn't find relevant information about: " +:+ query
  | Raise e => arithmetic e
  end.
Proof.
  intros (c & m & t & word & Hop & Hquery & Hcontent).
  assert (DocumentStore.doc_scores (run ops) query ≠ []) as Hscored.
  { intros Hnil.
    assert (doc_id ∈ (DocumentStore.doc_scores (run ops) query).*1) as Hd.
    { apply doc_scores_keys. exists word. split; [done|].
      rewrite entry_history. apply listed_under_added. by exists c, m, t. }
    rewrite Hnil in Hd. by apply elem_of_nil in Hd. }
  unfold generate_response. cbn [context_retriever].
  pose proof (retrieve_context_outcome_aux fsum pow_2 pow_half ops gen query 3)
    as Hctx.
  destruct (retrieve_context _ _ _ _ query 3) as [context|e];
    cbn [mbind result_bind]; [|done].
  destruct Hctx as (found & Hfound & Hperm).
  apply search_documents_found in Hfound as [_ Hlen].
  assert (length context = length found) as Hcontext.
  { by rewrite <- (length_fmap candidate_of_context), Hperm, length_fmap. }
  assert (1 ≤ length context)%nat as Hone.
  { rewrite Hcontext, Hlen. unfold DocumentStore.ranked_docs, slice_to.
    change (3 <? 0) with false. cbv iota.
    rewrite length_take, sorted_reverse_perm.
    destruct (DocumentStore.doc_scores (run ops) query); [done|].
    change (Z.to_nat 3) with 3%nat. simpl. lia. }
  cbn [r_context_used r_response]. split; [lia|].
  intros Hfallback%build_response_fallback. subst. simpl in Hone. lia.
Qed.

Lemma matching_query_uses_context_witness :
  match generate_response Reference.fsum Reference.pow_2 Reference.pow_half
          {| context_retriever :=
               {| doc_store := run Examples.two_documents;
                  embedding_gen := EmbeddingGenerator.new 384 |} |}
          "What is Python" None "2024-01-01T00:00:02" with
  | Ok response =>
      1 ≤ r_context_used response ∧
      r_response response ≠
        "I couldn't find relevant information about: " +:+ "What is Python"
  | Raise e => arithmetic e
  end.
Proof.
  apply (matching_query_uses_context Reference.fsum Reference.pow_2
           Reference.pow_half Examples.two_documents (EmbeddingGenerator.new 384)
           "What is Python" "d2" None "2024-01-01T00:00:02").
  exists "Loops repeat code in Python", None, "2024-01-01T00:00:01", "python".
  split; [right; left|]. split; vm_compute; repeat constructor.
Defined.

(** ** The hash integer as a number of the digest *)

Lemma int_16_from_hex_bytes acc bs :
  Forall is_byte bs →
  int_16_from acc (MD5.hex bs) =
  Some (fold_left (fun a b => 256 * a + b) bs acc).
Proof.
  intros Hbs. revert acc. induction Hbs as [|b bs Hb Hbs IH]; intros acc; [done|].
  assert (0 ≤ Z.shiftr b 4 < 16) as Hhi.
  { rewrite Z.shiftr_div_pow2 by lia. unfold is_byte in Hb.
    change (2 ^ 4) with 16. split.
    - apply Z.div_pos; lia.
    - apply Z.div_lt_upper_bound; lia. }
  assert (0 ≤ Z.land b 15 < 16) as Hlo.
  { change 15 with (Z.ones 4). rewrite Z.land_ones by lia.
    apply Z.mod_pos_bound. lia. }
  cbn [MD5.hex int_16_from fold_left].
  rewrite (hex_value_digit _ Hhi). cbn [mbind option_bind].
  rewrite (hex_value_digit _ Hlo). cbn [mbind option_bind].
  rewrite IH. do 2 f_equal.
  rewrite Z.shiftr_div_pow2 by lia. change 15 with (Z.ones 4).
  rewrite Z.land_ones by lia. change (2 ^ 4) with 16.
  pose proof (Z.div_mod b 16). lia.
Qed.

(** X25. The hexadecimal digest of a text always reads back as an
    integer: [hash_int] is the 16 bytes of the MD5 digest read as one
    number, the first byte the most significant, and lies from 0 up to,
    not including, [2^128]. *)
Theorem hash_int_is_digest (text : string) :
  int_16 (MD5.hexdigest (Text.encode text)) =
    Some (big_endian (MD5.digest (Text.encode text))) ∧
  EmbeddingGenerator.hash_int text = big_endian (MD5.digest (Text.encode text)) ∧
  length (MD5.digest (Text.encode text)) = 16%nat ∧
  0 ≤ EmbeddingGenerator.hash_int text < 2 ^ 128.
Proof.
  destruct (digest_bytes (Text.encode text)) as [Hlen Hbytes].
  assert (int_16 (MD5.hexdigest (Text.encode text)) =
          Some (big_endian (MD5.digest (Text.encode text)))) as Hint.
  { unfold MD5.hexdigest, big_endian.
    rewrite <- (int_16_from_hex_bytes 0 _ Hbytes).
    by destruct (MD5.digest (Text.encode text)). }
  split; [done|]. split.
  - unfold EmbeddingGenerator.hash_int. by rewrite Hint.
  - split; [done|apply hash_int_range].
Qed.
